(** * warm-start-framework: Entity2Rec and the PageRank recommender

    A shallow embedding of [src/models/entity2rec/entity2rec.py] and
    [src/models/pagerank/pagerank_recommender.py], and the properties of the
    specification checked against it.

    Conventions of the embedding.
    - A Python call that may raise returns [result A]: [Ok a] for a normal
      return, [Err e] for the exception [e] that leaves the call.
    - Python objects mutated in place ([self], a graph) are threaded as
      explicit states.
    - Scalars (numpy floats) are rationals [Q]: the order and the arithmetic
      mean are the exact ones; rounding and nan are outside the model.
    - A [dict] whose iteration order is observed is an association list in
      insertion order; a [dict] that is only looked up is a [gmap].
    - Library code the repository calls but does not contain is a [Variable]
      of the enclosing section. The LambdaMART trainer and [pagerank_scipy]
      return the exception they raise, which the caller lets out unchanged,
      and the trainer also returns the state it leaves on the object. The
      similarity provider returns [None] when the call raises; the caller
      sees [External] with the name of the library entry point. *)

From Stdlib Require Import ZArith QArith Ascii Sorting.Sorted.
From stdpp Require Import base option list sorting strings gmap pretty.

Set Default Proof Using "Type".

(** ** Python values, exceptions and results *)

Module Py.

(** The built-in exceptions the two modules can raise, and [External] for a
    failure inside a library call. *)
Inductive exn : Type :=
| ValueError (msg : string)
| KeyError
| IndexError
| AttributeError
| ZeroDivisionError
| NotImplementedError
| External (msg : string).

Inductive result (A : Type) : Type :=
| Ok (a : A)
| Err (e : exn).
Arguments Ok {A} a.
Arguments Err {A} e.

#[global] Instance result_ret : MRet result := fun _ a => Ok a.
#[global] Instance result_bind : MBind result := fun _ _ f m =>
  match m with Ok a => f a | Err e => Err e end.
#[global] Instance result_fmap : FMap result := fun _ _ f m =>
  match m with Ok a => Ok (f a) | Err e => Err e end.

Definition is_Ok {A} (r : result A) : Prop := ∃ a, r = Ok a.
Definition raises {A} (r : result A) : Prop := ∃ e, r = Err e.

(** [o] when it is there, the exception [e] otherwise: the shape of every
    subscript ([d[k]], [a[i]]) and attribute access on [None]. *)
Definition or_raise {A} (e : exn) (o : option A) : result A :=
  match o with Some a => Ok a | None => Err e end.

(** Identifiers (users, items, query ids) are Python strings or integers. *)
Inductive pyval : Type :=
| PStr (s : string)
| PInt (z : Z).

#[global] Instance pyval_eq_dec : EqDecision pyval.
Proof. solve_decision. Defined.

(** [str(v)], also what an f-string inserts for [{v}]. *)
Definition py_str (v : pyval) : string :=
  match v with
  | PStr s => s
  | PInt z => pretty z
  end.

#[global] Instance pyval_countable : Countable pyval.
Proof.
  refine (inj_countable'
            (λ v, match v with PStr s => inl s | PInt z => inr z end)
            (λ c, match c with inl s => PStr s | inr z => PInt z end) _).
  by intros [].
Defined.

(** Truth value of a list in a condition ([if not xs]). *)
Definition list_truthy {A} (l : list A) : bool :=
  match l with [] => false | _ => true end.

(** [enumerate(l)]. *)
Definition enumerate {A} (l : list A) : list (nat * A) :=
  zip (seq 0 (length l)) l.

(** *** numpy *)

Definition Qltb (x y : Q) : bool := negb (Qle_bool y x).

Definition Qsum (row : list Q) : Q := foldr Qplus 0%Q row.

(** [np.mean(row)]. On an empty row numpy warns and returns nan without
    raising; [Q] has no nan and the quotient by zero is [0] there. *)
Definition np_mean (row : list Q) : Q :=
  (Qsum row / inject_Z (Z.of_nat (length row)))%Q.

(** Scan for [np.argmax]: [best] is the index of the greatest value [bv]
    seen so far, [i] the index of the head of [l]; a later value replaces
    it only when strictly greater. *)
Fixpoint argmax_from (best : nat) (bv : Q) (i : nat) (l : list Q) : nat :=
  match l with
  | [] => best
  | x :: l' =>
      if Qltb bv x then argmax_from i x (S i) l'
      else argmax_from best bv (S i) l'
  end.

(** [np.argmax(row)]: the first index of the maximum; [ValueError] on an
    empty row. *)
Definition np_argmax (row : list Q) : result nat :=
  match row with
  | [] => Err (ValueError "attempt to get argmax of an empty sequence")
  | x :: l => Ok (argmax_from 0 x 1 l)
  end.

(** [np.where(a == v)]: the positions of [a] holding [v], increasing. *)
Definition np_where_eq (a : list pyval) (v : pyval) : list nat :=
  (filter (λ p, p.2 = v) (enumerate a)).*1.

(** [a[idx]] for an index array: the rows at [idx], [IndexError] when an
    index is out of bounds. *)
Definition np_take {A} (a : list A) (idx : list nat) : result (list A) :=
  mapM (λ i, or_raise IndexError (a !! i)) idx.

(** *** sorting and selection *)

(** One step of a stable descending insertion: [x] stood before every
    element of [l] in the input, so it passes only strictly greater keys. *)
Fixpoint insert_desc {A} (x : Q * A) (l : list (Q * A)) : list (Q * A) :=
  match l with
  | [] => [x]
  | y :: l' => if Qltb x.1 y.1 then y :: insert_desc x l' else x :: l
  end.

(** [sorted(l, key=..., reverse=True)] on a list already decorated with its
    keys: descending, elements with equal keys in their original order. *)
Definition sorted_reverse {A} (l : list (Q * A)) : list (Q * A) :=
  foldr insert_desc [] l.

(** The order of the output of [sorted_reverse] on elements tagged with
    their input position: a greater key first, and for equal keys the
    earlier position first. *)
Definition precedes (p q : Q * nat) : Prop :=
  (q.1 < p.1)%Q ∨ ((p.1 == q.1)%Q ∧ p.2 < q.2).

(** [heapq.nlargest(n, l, key=key)], documented as
    [sorted(l, key=key, reverse=True)[:n]]. For [n <= 0] the result is
    empty and [key] is never called; otherwise [key] is called once on
    every element, in order, before any selection. *)
Definition nlargest {A} (n : Z) (l : list A) (key : A → result Q)
  : result (list A) :=
  if (n <=? 0)%Z then Ok []
  else
    keys ← mapM key l;
    Ok (take (Z.to_nat n) (sorted_reverse (zip keys l))).*2.

(** [max(l, key=key)] for a total key: the first element whose key is
    greatest; [ValueError] on an empty list. *)
Fixpoint max_from {A} (key : A → Q) (best : A) (l : list A) : A :=
  match l with
  | [] => best
  | x :: l' => if Qltb (key best) (key x) then max_from key x l'
               else max_from key best l'
  end.

Definition py_max {A} (key : A → Q) (l : list A) : result A :=
  match l with
  | [] => Err (ValueError "max() arg is an empty sequence")
  | x :: l' => Ok (max_from key x l')
  end.

(** *** dicts in insertion order *)

(** [d[k] = v]: an existing key keeps its position (and the key object),
    a new key goes last. *)
Fixpoint dict_set {K V} (eqb : K → K → bool) (k : K) (v : V)
    (d : list (K * V)) : list (K * V) :=
  match d with
  | [] => [(k, v)]
  | (k', v') :: d' =>
      if eqb k' k then (k', v) :: d' else (k', v') :: dict_set eqb k v d'
  end.

(** [{k: v for k, v in kvs}]. *)
Definition dict_of {K V} (eqb : K → K → bool) (kvs : list (K * V))
  : list (K * V) :=
  foldl (λ d kv, dict_set eqb kv.1 kv.2 d) [] kvs.

Definition dict_get {K V} (eqb : K → K → bool) (k : K) (d : list (K * V))
  : result V :=
  or_raise KeyError (snd <$> find (λ kv, eqb kv.1 k) d).

(** *** strings *)

(** [c in s] for a character [c]. *)
Fixpoint contains (c : Ascii.ascii) (s : string) : bool :=
  match s with
  | EmptyString => false
  | String a s' => bool_decide (a = c) || contains c s'
  end.

(** [s.split(c)[-1]]: what follows the last [c] of [s], all of [s] when it
    has none. *)
Fixpoint split_last (c : Ascii.ascii) (s : string) : string :=
  match s with
  | EmptyString => EmptyString
  | String a s' =>
      if contains c s' then split_last c s'
      else if bool_decide (a = c) then s' else s
  end.

(** [s.split(c)[0]]: what precedes the first [c] of [s], all of [s] when it
    has none. *)
Fixpoint split_first (c : Ascii.ascii) (s : string) : string :=
  match s with
  | EmptyString => EmptyString
  | String a s' =>
      if bool_decide (a = c) then EmptyString else String a (split_first c s')
  end.

(** [int(x)] on a number: truncation towards zero. *)
Definition py_int (x : Q) : Z := Z.quot (Qnum x) (Z.pos (Qden x)).

End Py.
Import Py.

(** ** [entity2rec.py]: the [Property] class *)

Module Entity2Rec.

(** [class Property]: the attribute [_typology] behind a read property and a
    validating setter. *)
Record Property : Type := mkProperty {
  name : string;
  _typology : string;
}.

(** [Property.__init__(self, name, typology)]: both attributes are stored
    as given; the setter is not involved since [__init__] writes
    [self._typology]. *)
Definition Property_init (name typology : string) : Property :=
  {| name := name; _typology := typology |}.

(** [Property.typology] (getter). *)
Definition typology (p : Property) : string := _typology p.

Definition typology_error : exn :=
  ValueError "Type of property can be: collaborative, content or social".

(** [Property.typology] (setter). *)
Definition set_typology (p : Property) (value : string) : result Property :=
  if bool_decide (value ≠ "collaborative") && bool_decide (value ≠ "content")
     && bool_decide (value ≠ "social")
  then Err typology_error
  else Ok {| name := name p; _typology := value |}.

(** ** [entity2rec.py]: the [Entity2Rec] class *)

(** What a fitted ranking model computes: one score per feature row. *)
Definition Predictor : Type := list (list Q) → list Q.

(** The metric objects [fit] chooses from, each at its cutoff [k]. *)
Inductive Metric : Type :=
| NDCG (k : Z)
| PrecisionAtN (k : Z)
| AP (k : Z).

(** A [pyltr.models.LambdaMART] object: its constructor arguments, and the
    estimators once [fit] has run on it. *)
Record LambdaMART : Type := mkLambdaMART {
  metric : Metric;
  n_estimators : Z;
  learning_rate : Q;
  max_depth : Z;
  max_features : option Z;
  estimators : option Predictor;
}.

(** How [LambdaMART.fit] ends on the object it is called on: it returns,
    with the estimators fitted, or it raises [e], the object keeping the
    estimators built before the exception, if any. *)
Inductive FitOutcome : Type :=
| Fitted (est : Predictor)
| Failed (e : exn) (built : option Predictor).

(** Feature matrix, labels and query ids of one data set. *)
Abbreviation Dataset := (list (list Q) * list Q * list pyval)%type (only parsing).

(** The attributes of an [Entity2Rec] instance that the methods below read
    or write. *)
Record Entity2Rec : Type := mkEntity2Rec {
  properties : list Property;
  model : option LambdaMART;
  collab_only : bool;
  content_only : bool;
  social_only : bool;
  models : gmap pyval LambdaMART;
  user_to_cluster : option (gmap string pyval);
}.

Definition set_model (self : Entity2Rec) (m : option LambdaMART) : Entity2Rec :=
  {| properties := properties self; model := m;
     collab_only := collab_only self; content_only := content_only self;
     social_only := social_only self; models := models self;
     user_to_cluster := user_to_cluster self |}.

(** [_set_properties]: [relations] is [set(triples['relation'])] in the
    order the loop enumerates it; every relation is appended as a content
    property, then [feedback] as the collaborative one. *)
Definition _set_properties (props : list Property) (relations : list string)
  : list Property :=
  foldl (λ ps relation, ps ++ [Property_init relation "content"]) props relations
  ++ [Property_init "feedback" "collaborative"].

(** [__init__], for the attributes above: [self.properties = []] followed by
    [_set_properties], no model, the three flags as given, no cluster
    models and no routing table. *)
Definition Entity2Rec_init (relations : list string)
    (collab_only content_only social_only : bool) : Entity2Rec :=
  {| properties := _set_properties [] relations; model := None;
     collab_only := collab_only; content_only := content_only;
     social_only := social_only; models := ∅; user_to_cluster := None |}.

Section methods.

(** [Entity2Rel.relatedness_score(prop_name, a, b)]. *)
Variable relatedness_score : string → pyval → pyval → option Q.

(** [LambdaMART.fit(x, y, qids, monitor=...)] on the object [m]. The
    monitor is the validation set with the fit metric. *)
Variable lambdamart_fit :
  LambdaMART → Dataset → option (Dataset * Metric) → FitOutcome.

Definition score (prop : Property) (a b : pyval) : result Q :=
  or_raise (External "relatedness_score") (relatedness_score (name prop) a b).

Definition of_typology (t : string) (self : Entity2Rec) : list Property :=
  filter (λ prop, typology prop = t) (properties self).

Definition collab_similarities (self : Entity2Rec) (user item : pyval)
  : result (list Q) :=
  mapM (λ prop, score prop user item) (of_typology "collaborative" self).

Definition content_similarities (self : Entity2Rec) (user item : pyval)
    (items_liked_by_user : list pyval) : result (list Q) :=
  let content_properties := of_typology "content" self in
  if negb (list_truthy items_liked_by_user)
  then Ok ((λ _, 0%Q) <$> content_properties)
  else mapM (λ prop,
               sims_prop ← mapM (λ past_item, score prop past_item item)
                                items_liked_by_user;
               Ok (np_mean sims_prop))
            content_properties.

Definition social_similarities (self : Entity2Rec) (user item : pyval)
    (users_liking_the_item : list pyval) : result (list Q) :=
  let social_properties := of_typology "social" self in
  if negb (list_truthy users_liking_the_item)
  then Ok ((λ _, 0%Q) <$> social_properties)
  else mapM (λ prop,
               sims_prop ← mapM (λ past_user, score prop past_user user)
                                users_liking_the_item;
               Ok (np_mean sims_prop))
            social_properties.

Definition _compute_scores (self : Entity2Rec) (user item : pyval)
    (items_liked_by_user users_liking_the_item : list pyval)
  : result (list Q * list Q * list Q) :=
  collab_score ← collab_similarities self user item;
  content_scores ← content_similarities self user item items_liked_by_user;
  social_scores ← social_similarities self user item users_liking_the_item;
  Ok (collab_score, content_scores, social_scores).

Definition compute_user_item_features (self : Entity2Rec) (user item : pyval)
    (items_liked_by_user users_liking_the_item : list pyval)
  : result (list Q) :=
  '(collab_scores, content_scores, social_scores) ←
    _compute_scores self user item items_liked_by_user users_liking_the_item;
  if collab_only self then Ok collab_scores
  else if content_only self then Ok content_scores
  else if social_only self then Ok social_scores
  else Ok (collab_scores ++ content_scores ++ social_scores).

(** The [if/elif] chain of [fit] on [optimize]. *)
Definition fit_metric (optimize : string) (N : Z) : result Metric :=
  if bool_decide (optimize = "NDCG") then Ok (NDCG N)
  else if bool_decide (optimize = "P") then Ok (PrecisionAtN N)
  else if bool_decide (optimize = "AP") then Ok (AP N)
  else Err (ValueError "Metric not implemented").

(** [fit]: the instance after the call, and how the call ended. The
    parameter [user_to_cluster] of the method is never read and is left out.
    [self.model] is assigned the new, unfitted object before the trainer
    runs on it, so the object stays there, as the trainer left it, when the
    trainer raises; the exception is the trainer's. *)
Definition fit (self : Entity2Rec) (train : Dataset)
    (x_val : option (list (list Q))) (y_val : option (list Q))
    (qids_val : option (list pyval))
    (optimize : string) (N : option Z) (lr : Q)
    (n_estimators max_depth : Z) (max_features : option Z)
  : Entity2Rec * result () :=
  let N := match N with
           | None => (10 ^ 8)%Z
           | Some n => if (n =? 0)%Z then (10 ^ 8)%Z else n
           end in
  match fit_metric optimize N with
  | Err e => (self, Err e)
  | Ok fm =>
      let m := {| metric := fm; n_estimators := n_estimators;
                  learning_rate := lr; max_depth := max_depth;
                  max_features := max_features; estimators := None |} in
      let monitor :=
        match x_val, y_val, qids_val with
        | Some xv, Some yv, Some qv => Some (xv, yv, qv, fm)
        | _, _, _ => None
        end in
      match lambdamart_fit m train monitor with
      | Failed e built =>
          (set_model self (Some {| metric := fm; n_estimators := n_estimators;
                                   learning_rate := lr; max_depth := max_depth;
                                   max_features := max_features;
                                   estimators := built |}), Err e)
      | Fitted est =>
          (set_model self (Some {| metric := fm; n_estimators := n_estimators;
                                   learning_rate := lr; max_depth := max_depth;
                                   max_features := max_features;
                                   estimators := Some est |}), Ok ())
      end
  end.

(** [m.predict(x)] of a LambdaMART object; an object that was never fitted
    has no estimators to evaluate. *)
Definition LambdaMART_predict (m : LambdaMART) (x : list (list Q))
  : result (list Q) :=
  est ← or_raise (External "LambdaMART.predict") (estimators m);
  Ok (est x).

(** What [predict] returns: a list with one one-element array per row in
    cluster mode, one array or list of scores otherwise. *)
Inductive Predictions : Type :=
| PerRow (preds : list (list Q))
| Scores (preds : list Q).

(** [if self.user_to_cluster:]: neither [None] nor an empty dict. *)
Definition routing (self : Entity2Rec) : option (gmap string pyval) :=
  match user_to_cluster self with
  | Some table => if decide (table = ∅) then None else Some table
  | None => None
  end.

(** The body of the loop of [predict] in cluster mode, for row [i]. *)
Definition predict_row (self : Entity2Rec) (table : gmap string pyval)
    (qids_test : list pyval) (row : nat * list Q) : result (list Q) :=
  let '(i, line) := row in
  qid ← py_str <$> or_raise IndexError (qids_test !! i);
  cluster ← or_raise KeyError (table !! qid);
  model ← or_raise KeyError (models self !! cluster);
  LambdaMART_predict model [line].

Definition predict (self : Entity2Rec) (x_test : list (list Q))
    (qids_test : list pyval) : result Predictions :=
  match routing self with
  | Some table =>
      PerRow <$> mapM (predict_row self table qids_test) (enumerate x_test)
  | None =>
      match model self with
      | Some m => Scores <$> LambdaMART_predict m x_test
      | None => Ok (Scores (np_mean <$> x_test))
      end
  end.

(** The entry of [candidates_index] for row [i] of the user's rows: the
    candidate and the name of [self.properties[np.argmax(features[i])]]. *)
Definition candidate_entry (self : Entity2Rec) (features : list (list Q))
    (row : nat * pyval) : result (nat * (pyval * string)) :=
  let '(i, candidate) := row in
  feature ← or_raise IndexError (features !! i);
  best ← np_argmax feature;
  prop ← or_raise IndexError (properties self !! best);
  Ok (i, (candidate, name prop)).

(** The [if not average ... else ...] of [recommend] that computes [preds]. *)
Definition recommend_preds (self : Entity2Rec) (features : list (list Q))
    (average : bool) : result (list Q) :=
  if negb average
  then m ← or_raise AttributeError (model self);
       LambdaMART_predict m features
  else Ok (np_mean <$> features).

(** [recommend]. [candidates_index] is a dict built from distinct keys
    [0, 1, ...], so it is the list of its entries in that order. *)
Definition recommend (self : Entity2Rec) (user : pyval)
    (qids_test : list pyval) (x_test : list (list Q)) (items_test : list pyval)
    (N : Z) (average : bool) : result (list (pyval * string)) :=
  let indeces := np_where_eq qids_test user in
  features ← np_take x_test indeces;
  candidates ← np_take items_test indeces;
  preds ← recommend_preds self features average;
  candidates_index ← mapM (candidate_entry self features) (enumerate candidates);
  recs_index ← nlargest N candidates_index.*1
                  (λ x, or_raise IndexError (preds !! x));
  mapM (λ index, dict_get Nat.eqb index candidates_index) recs_index.

End methods.

(** *** Persistence *)

(** [joblib.dump(obj, file)] and [joblib.load(file)] on a store of pickled
    objects by file name: a dump that succeeds binds the name to the object,
    a load returns the object bound to the name and fails on a name that
    was never written. The object here is the value of [self.model]. *)
Definition joblib_dump (obj : option LambdaMART) (file : string)
    (files : gmap string (option LambdaMART))
  : gmap string (option LambdaMART) :=
  <[file := obj]> files.

Definition joblib_load (file : string)
    (files : gmap string (option LambdaMART)) : result (option LambdaMART) :=
  or_raise (External "joblib.load") (files !! file).

(** [save_model]: the store after the call, and how the call ended. *)
Definition save_model (self : Entity2Rec) (model_file : string)
    (files : gmap string (option LambdaMART))
  : gmap string (option LambdaMART) * result () :=
  match model self with
  | None => (joblib_dump (model self) model_file files, Ok ())
  | Some _ => (files, Err AttributeError)
  end.

(** [load_model]: the instance after the call, and how the call ended. *)
Definition load_model (self : Entity2Rec) (model_file : string)
    (files : gmap string (option LambdaMART)) : Entity2Rec * result () :=
  match joblib_load model_file files with
  | Ok obj => (set_model self obj, Ok ())
  | Err e => (self, Err e)
  end.

(** *** Embedding files *)

(** The attributes [_set_embedding_files] reads besides the properties:
    those set by [Entity2Vec.__init__] ([p] and [q] go through [int(...)],
    the others are integers), [self.dataset], and the two names taken from
    [self.split]. *)
Record WalkConfig : Type := mkWalkConfig {
  dataset : string;
  num_walks : Z;
  p : Q;
  q : Q;
  walk_length : Z;
  dimensions : Z;
  iter : Z;
  window_size : Z;
  experiment_name : string;
  split_name : string;
}.

(** [prop_short] of the loop body. *)
Definition prop_short (prop_name : string) : string :=
  if contains "/"%char prop_name then split_last "/"%char prop_name
  else prop_name.

(** The [emb_file] the loop body of [_set_embedding_files] builds for a
    property name; on integers [%d] and [%s] print the same decimal. *)
Definition emb_file (cfg : WalkConfig) (prop_name : string) : string :=
  if bool_decide (prop_name = "feedback") then
    let splitting := experiment_name cfg in
    let number := split_first "."%char (split_name cfg) in
    "emb/" +:+ dataset cfg +:+ "/" +:+ prop_short prop_name
    +:+ "/num" +:+ pretty (num_walks cfg)
    +:+ "_p" +:+ pretty (py_int (p cfg))
    +:+ "_q" +:+ pretty (py_int (q cfg))
    +:+ "_l" +:+ pretty (walk_length cfg)
    +:+ "_d" +:+ pretty (dimensions cfg)
    +:+ "_iter" +:+ pretty (iter cfg)
    +:+ "_winsize" +:+ pretty (window_size cfg)
    +:+ splitting +:+ "-" +:+ number +:+ ".emd"
  else
    "emb/" +:+ dataset cfg +:+ "/" +:+ prop_short prop_name
    +:+ "/num" +:+ pretty (num_walks cfg)
    +:+ "_p" +:+ pretty (py_int (p cfg))
    +:+ "_q" +:+ pretty (py_int (q cfg))
    +:+ "_l" +:+ pretty (walk_length cfg)
    +:+ "_d" +:+ pretty (dimensions cfg)
    +:+ "_iter" +:+ pretty (iter cfg)
    +:+ "_winsize" +:+ pretty (window_size cfg)
    +:+ ".emd".

(** [_set_embedding_files]: the calls [self.add_embedding(prop_name,
    emb_file)] it makes, in order. *)
Definition _set_embedding_files (cfg : WalkConfig) (self : Entity2Rec)
  : list (string * string) :=
  (λ prop, (name prop, emb_file cfg (name prop))) <$> properties self.

(** *** Vocabulary of the statements about [Entity2Rec] *)

(** How many of the three view overrides are set. *)
Definition overrides_set (self : Entity2Rec) : nat :=
  Nat.b2n (collab_only self) + Nat.b2n (content_only self)
  + Nat.b2n (social_only self).

(** The instance holds a model that has its estimators. *)
Definition trained (self : Entity2Rec) : Prop :=
  ∃ m est, model self = Some m ∧ estimators m = Some est.

(** The names of the properties in the order of the slots of a feature
    vector: the typology of the set override alone, or collaborative, then
    content, then social. *)
Definition feature_layout (self : Entity2Rec) : list string :=
  let names t := name <$> filter (λ prop, typology prop = t) (properties self) in
  if collab_only self then names "collaborative"
  else if content_only self then names "content"
  else if social_only self then names "social"
  else names "collaborative" ++ names "content" ++ names "social".

(** In the ranking by [preds], row [i] comes before row [j]: a greater
    score, or the same score and an earlier row. *)
Definition ranks_before (preds : list Q) (i j : nat) : Prop :=
  ∃ pi pj, preds !! i = Some pi ∧ preds !! j = Some pj
           ∧ ((pj < pi)%Q ∨ ((pi == pj)%Q ∧ i < j)).

(** The entry [recommend] reports for row [i] of the test arrays: the
    candidate of the row, and the name of the property of the instance at
    the arg-max position of the row's feature vector. *)
Definition reports (self : Entity2Rec) (x_test : list (list Q))
    (items_test : list pyval) (i : nat) (rec : pyval * string) : Prop :=
  ∃ row best prop,
    items_test !! i = Some rec.1 ∧ x_test !! i = Some row
    ∧ np_argmax row = Ok best ∧ properties self !! best = Some prop
    ∧ rec.2 = name prop.

End Entity2Rec.


(** ** [pagerank_recommender.py] *)

Module PageRank.

(** A rating of the training set: [rating.e_idx], an entity index, and
    [rating.rating]. *)
Record Rating : Type := mkRating {
  e_idx : Z;
  rating : Z;
}.

(** A [networkx.Graph]: nodes in insertion order, each once; undirected
    edges, each stored once with the endpoints as first given. User nodes
    are strings, entity nodes are entity indexes. *)
Record Graph : Type := mkGraph {
  nodes : list pyval;
  edges : list (pyval * pyval);
}.

Definition empty_graph : Graph := {| nodes := []; edges := [] |}.

Definition has_node (g : Graph) (n : pyval) : Prop := n ∈ nodes g.

Definition has_edge (g : Graph) (u v : pyval) : Prop :=
  (u, v) ∈ edges g ∨ (v, u) ∈ edges g.

#[global] Instance has_node_dec g n : Decision (has_node g n).
Proof. unfold has_node. apply _. Defined.

#[global] Instance has_edge_dec g u v : Decision (has_edge g u v).
Proof. unfold has_edge. apply _. Defined.

(** [graph.add_node(n)]. *)
Definition add_node (g : Graph) (n : pyval) : Graph :=
  if decide (n ∈ nodes g) then g
  else {| nodes := nodes g ++ [n]; edges := edges g |}.

(** [graph.add_edge(u, v)]: both endpoints become nodes, and the edge is
    added unless the graph has it already. *)
Definition add_edge (g : Graph) (u v : pyval) : Graph :=
  let g := add_node (add_node g u) v in
  if decide (has_edge g u v) then g
  else {| nodes := nodes g; edges := edges g ++ [(u, v)] |}.

(** [f'user_{user}']. *)
Definition user_node (user : pyval) : pyval := PStr ("user_" +:+ py_str user).

Abbreviation Training := (list (pyval * list Rating)) (only parsing).

(** The test [only_positive and rating.rating != 1] that skips a rating. *)
Definition skipped (only_positive : bool) (r : Rating) : bool :=
  only_positive && bool_decide (rating r ≠ 1%Z).

(** [construct_collaborative_graph(graph, training, only_positive)]. *)
Definition construct_collaborative_graph (graph : Graph) (training : Training)
    (only_positive : bool) : Graph :=
  foldl (λ graph '(user, ratings),
           let user_id := user_node user in
           foldl (λ graph r,
                    if skipped only_positive r then graph
                    else add_edge (add_node graph (PInt (e_idx r)))
                                  user_id (PInt (e_idx r)))
                 (add_node graph user_id) ratings)
        graph training.

(** The attributes of a [PageRankRecommender]. *)
Record PageRankRecommender : Type := mkPageRankRecommender {
  graph : option Graph;
  alpha : option Q;
  only_positive : bool;
  user_ratings : gmap pyval (list Rating);
}.

(** [__init__(only_positive)]. *)
Definition PageRankRecommender_init (only_positive : bool)
  : PageRankRecommender :=
  {| graph := None; alpha := None; only_positive := only_positive;
     user_ratings := ∅ |}.

(** The first loop of [fit]: [self.user_ratings[user] = ratings]. *)
Definition record_ratings (self : PageRankRecommender) (training : Training)
  : PageRankRecommender :=
  {| graph := graph self; alpha := alpha self;
     only_positive := only_positive self;
     user_ratings := foldl (λ d '(user, ratings), <[user := ratings]> d)
                           (user_ratings self) training |}.

(** [self.graph = g]. *)
Definition set_graph (self : PageRankRecommender) (g : Graph)
  : PageRankRecommender :=
  {| graph := Some g; alpha := alpha self;
     only_positive := only_positive self;
     user_ratings := user_ratings self |}.

(** [self.alpha = a]. *)
Definition set_alpha (self : PageRankRecommender) (a : Q)
  : PageRankRecommender :=
  {| graph := graph self; alpha := Some a;
     only_positive := only_positive self;
     user_ratings := user_ratings self |}.

(** One entry of the validation set: the user's held-out item and the
    negative samples it is ranked against. *)
Abbreviation ValidationTuple := (pyval * list pyval)%type (only parsing).

(** [np.linspace(0.1, 1, 10)[:-1]]. *)
Definition alpha_ranges : list Q :=
  [1 # 10; 2 # 10; 3 # 10; 4 # 10; 5 # 10; 6 # 10; 7 # 10; 8 # 10; 9 # 10]%Q.

Section methods.

(** [networkx.pagerank_scipy(graph, alpha=..., personalization=...)]: the
    items of the returned dict, in the graph's node order, or the exception
    the call raises. The arguments are passed as the attributes hold them,
    [None] included. *)
Variable pagerank_scipy :
  option Graph → option Q → list (pyval * Z) → result (list (pyval * Q)).

(** [self.construct_graph(training)]: raises [NotImplementedError] in this
    class; the subclasses of the repository override it. *)
Variable construct_graph : PageRankRecommender → Training → result Graph.

Definition pyval_eqb (a b : pyval) : bool := bool_decide (a = b).

(** [_scores]: an exception of the engine leaves the call as it is. *)
Definition _scores (self : PageRankRecommender) (alpha : option Q)
    (source_nodes : list Z) (items : list pyval) : result (list (pyval * Q)) :=
  let personalization :=
    dict_of pyval_eqb ((λ entity, (PInt entity, 1%Z)) <$> source_nodes) in
  scores ← pagerank_scipy (graph self) alpha personalization;
  Ok (dict_of pyval_eqb (filter (λ kv, kv.1 ∈ items) scores)).

(** [get_source_nodes]. *)
Definition get_source_nodes (self : PageRankRecommender) (user : pyval)
  : result (list Z) :=
  or_raise KeyError (user_ratings self !! user) ≫= λ ratings : list Rating,
  Ok (e_idx <$> filter (λ r, negb (skipped (only_positive self) r)) ratings).

(** [predict]. *)
Definition predict (self : PageRankRecommender) (user : pyval)
    (items : list pyval) : result (list (pyval * Q)) :=
  source_nodes ← get_source_nodes self user;
  _scores self (alpha self) source_nodes items.

(** [_validate], with [k] at its default of 10. *)
Definition _validate (self : PageRankRecommender) (alpha : Q)
    (source_nodes : list Z) (validation_item : pyval) (negatives : list pyval)
  : result bool :=
  scores ← _scores self (Some alpha) source_nodes (validation_item :: negatives);
  let scores := take 10 (sorted_reverse ((λ kv, (kv.2, kv)) <$> scores)).*2 in
  Ok (bool_decide (validation_item ∈ scores.*1)).

(** The inner loop of [fit] for one [alpha]: [(hits, count)] after the
    validation set has been walked. *)
Fixpoint validation_pass (self : PageRankRecommender) (alpha : Q)
    (validation : list (pyval * ValidationTuple)) (hits count : Z)
  : result (Z * Z) :=
  match validation with
  | [] => Ok (hits, count)
  | (user, (validation_item, negatives)) :: validation =>
      source_nodes ← get_source_nodes self user;
      if negb (list_truthy source_nodes)
      then validation_pass self alpha validation hits count
      else
        hit ← _validate self alpha source_nodes validation_item negatives;
        validation_pass self alpha validation
          (hits + (if hit : bool then 1 else 0))%Z (count + 1)%Z
  end.

(** [hits / count] on Python integers. *)
Definition true_div (hits count : Z) : result Q :=
  if (count =? 0)%Z then Err ZeroDivisionError
  else Ok (inject_Z hits / inject_Z count)%Q.

(** The outer loop of [fit] over the alphas still to try; [alpha_hit] is
    the dict filled so far. *)
Fixpoint alpha_loop (self : PageRankRecommender)
    (validation : list (pyval * ValidationTuple)) (alphas : list Q)
    (alpha_hit : list (Q * Q)) : result (list (Q * Q)) :=
  match alphas with
  | [] => Ok alpha_hit
  | alpha :: alphas =>
      '(hits, count) ← validation_pass self alpha validation 0%Z 0%Z;
      hit_ratio ← true_div hits count;
      alpha_loop self validation alphas (dict_set Qeq_bool alpha hit_ratio alpha_hit)
  end.

(** [max(alpha_hit.items(), key=operator.itemgetter(1))[0]]. *)
Definition best_alpha (alpha_hit : list (Q * Q)) : result Q :=
  fst <$> py_max snd alpha_hit.

(** [fit]: the instance after the call, and the returned [alpha_hit] or the
    exception. The logging and the unused parameters are left out. *)
Definition fit (self : PageRankRecommender) (training : Training)
    (validation : list (pyval * ValidationTuple))
  : PageRankRecommender * result (list (Q * Q)) :=
  let self := record_ratings self training in
  match construct_graph self training with
  | Err e => (self, Err e)
  | Ok g =>
      let self := set_graph self g in
      match alpha_loop self validation alpha_ranges [] with
      | Err e => (self, Err e)
      | Ok alpha_hit =>
          match best_alpha alpha_hit with
          | Err e => (self, Err e)
          | Ok a => (set_alpha self a, Ok alpha_hit)
          end
      end
  end.

End methods.

(** *** Vocabulary of the statements about [fit] *)

(** The validation entry is evaluated: its user has at least one seed
    entity. *)
Definition eligible (self : PageRankRecommender)
    (entry : pyval * ValidationTuple) : bool :=
  match get_source_nodes self entry.1 with
  | Ok (_ :: _) => true
  | _ => false
  end.

(** The held-out item of the entry is among the ten best for [alpha]. *)
Definition is_hit
    (pagerank_scipy :
       option Graph → option Q → list (pyval * Z) → result (list (pyval * Q)))
    (self : PageRankRecommender) (alpha : Q)
    (entry : pyval * ValidationTuple) : bool :=
  match get_source_nodes self entry.1 with
  | Ok source_nodes =>
      match _validate pagerank_scipy self alpha source_nodes
                      entry.2.1 entry.2.2 with
      | Ok hit => hit
      | Err _ => false
      end
  | Err _ => false
  end.

(** The diffusion engine raises [e] on a call the validation pass for
    [alpha] makes: on the graph of [self], with weight 1 on each seed entity
    of a validation user who has one. *)
Definition engine_raises
    (pagerank_scipy :
       option Graph → option Q → list (pyval * Z) → result (list (pyval * Q)))
    (self : PageRankRecommender) (alpha : Q)
    (validation : list (pyval * ValidationTuple)) (e : exn) : Prop :=
  ∃ entry source_nodes,
    entry ∈ validation
    ∧ get_source_nodes self entry.1 = Ok source_nodes
    ∧ source_nodes ≠ []
    ∧ pagerank_scipy (graph self) (Some alpha)
        (dict_of pyval_eqb ((λ entity, (PInt entity, 1%Z)) <$> source_nodes))
      = Err e.

(** What keeps the two lists a simple undirected graph: no node and no
    edge twice, every endpoint a node, and an edge stored in one direction
    only. *)
Definition simple_graph (g : Graph) : Prop :=
  NoDup (nodes g) ∧ NoDup (edges g)
  ∧ (∀ u v, (u, v) ∈ edges g → u ∈ nodes g ∧ v ∈ nodes g)
  ∧ (∀ u v, (u, v) ∈ edges g → (v, u) ∈ edges g → u = v).

(** [construct_graph] as this class has it. *)
Definition construct_graph_base (self : PageRankRecommender)
    (training : Training) : result Graph :=
  Err NotImplementedError.

(** [construct_graph] of a subclass that builds the collaborative graph
    from a new [Graph()]. *)
Definition construct_graph_collaborative (self : PageRankRecommender)
    (training : Training) : result Graph :=
  Ok (construct_collaborative_graph empty_graph training (only_positive self)).

End PageRank.

(** * Properties *)

(** ** Results and [mapM] *)

Lemma raises_not_Ok {A} (r : result A) : raises r ↔ ¬ is_Ok r.
Proof.
  destruct r as [a|e]; split.
  - intros [e' ?]; discriminate.
  - intros H. destruct H. by exists a.
  - intros _ [a ?]; discriminate.
  - intros _. by exists e.
Qed.

Section result_facts.
Context {A B : Type}.
Implicit Types (f : A → result B) (l : list A) (k : list B).

Lemma or_raise_Ok e (o : option A) a : or_raise e o = Ok a ↔ o = Some a.
Proof. destruct o; simpl; split; congruence. Qed.

Lemma mapM_Ok f l k :
  mapM f l = Ok k ↔ Forall2 (λ x y, f x = Ok y) l k.
Proof.
  revert k. induction l as [|x l IH]; intros k; simpl.
  - split; [intros [= <-]|inversion 1]; constructor.
  - split.
    + destruct (f x) as [y|e] eqn:Hx; simpl; [|discriminate].
      destruct (mapM f l) as [k'|e] eqn:Hl; simpl; [|discriminate].
      intros [= <-]. constructor; [done|]. by apply IH.
    + inversion 1 as [|? y ? k' Hx Hl]; subst. rewrite Hx. simpl.
      apply IH in Hl. rewrite Hl. done.
Qed.

Lemma mapM_raises f l x : x ∈ l → raises (f x) → raises (mapM f l).
Proof.
  intros Hx Hf. apply raises_not_Ok. intros [k Hk].
  apply mapM_Ok in Hk. destruct Hf as [e He].
  apply list_elem_of_lookup in Hx as [i Hi].
  destruct (Forall2_lookup_l _ _ _ _ _ Hk Hi) as (y & _ & Hy). congruence.
Qed.

Lemma mapM_Ok_length f l k : mapM f l = Ok k → length k = length l.
Proof. intros H%mapM_Ok. symmetry. by eapply Forall2_length. Qed.

End result_facts.

Lemma enumerate_lookup {A} (l : list A) i x :
  enumerate l !! i = Some x ↔ x.1 = i ∧ l !! i = Some x.2.
Proof.
  unfold enumerate. destruct x as [j y]. simpl.
  rewrite lookup_zip_with_Some. split.
  - intros (j' & y' & [= <- <-] & Hj & Hy).
    apply lookup_seq in Hj as [-> _]. done.
  - intros [-> Hy]. exists i, y. split_and!; [done| |done].
    apply lookup_seq. split; [done|]. by eapply lookup_lt_Some.
Qed.

Lemma enumerate_length {A} (l : list A) : length (enumerate l) = length l.
Proof. unfold enumerate. rewrite length_zip_with, length_seq. lia. Qed.

(** ** numpy indexing *)

Lemma np_where_eq_elem (a : list pyval) (v : pyval) (i : nat) :
  i ∈ np_where_eq a v ↔ a !! i = Some v.
Proof.
  unfold np_where_eq. rewrite list_elem_of_fmap. split.
  - intros ([j y] & -> & H). apply list_elem_of_filter in H as [Hy H].
    apply list_elem_of_lookup in H as [k H].
    apply enumerate_lookup in H as [<- H]. simpl in *. by subst.
  - intros H. exists (i, v). split; [done|].
    apply list_elem_of_filter. split; [done|].
    apply list_elem_of_lookup. exists i. by apply enumerate_lookup.
Qed.

Lemma np_take_Ok {A} (a : list A) (idx : list nat) (rows : list A) :
  np_take a idx = Ok rows ↔ Forall2 (λ i row, a !! i = Some row) idx rows.
Proof.
  unfold np_take. rewrite mapM_Ok.
  split; intros H; eapply Forall2_impl; [exact H| |exact H|];
    intros i row; apply or_raise_Ok.
Qed.

Lemma np_take_total {A} (a : list A) (idx : list nat) :
  (∀ i, i ∈ idx → i < length a) → is_Ok (np_take a idx).
Proof.
  induction idx as [|i idx IH]; intros H.
  - by exists [].
  - destruct IH as [rows Hrows]; [intros; apply H; by right|].
    destruct (lookup_lt_is_Some_2 a i) as [row Hrow]; [apply H; by left|].
    exists (row :: rows). apply np_take_Ok. constructor; [done|].
    by apply np_take_Ok.
Qed.

(** ** The order on scores *)

Lemma Qltb_true (x y : Q) : Qltb x y = true ↔ (x < y)%Q.
Proof.
  unfold Qltb. rewrite negb_true_iff. split.
  - intros H. apply Qnot_le_lt. intros Hle%Qle_bool_iff. congruence.
  - intros H. destruct (Qle_bool y x) eqn:Hle; [|done].
    apply Qle_bool_iff in Hle. by apply Qlt_not_le in H.
Qed.

Lemma Qltb_false (x y : Q) : Qltb x y = false ↔ (y <= x)%Q.
Proof.
  unfold Qltb. rewrite negb_false_iff. apply Qle_bool_iff.
Qed.

(** ** [np.argmax] *)

Lemma argmax_from_spec (l : list Q) (best : nat) (bv : Q) (i r : nat) :
  argmax_from best bv i l = r →
  (r = best ∧ ∀ x, x ∈ l → (x <= bv)%Q)
  ∨ ∃ k m, r = i + k ∧ l !! k = Some m ∧ (bv < m)%Q
           ∧ ∀ j x, l !! j = Some x →
               (x <= m)%Q ∧ (j < k → (x < m)%Q).
Proof.
  revert best bv i. induction l as [|y l IH]; intros best bv i; simpl.
  - intros <-. left. split; [done|]. by intros x Hx%elem_of_nil.
  - destruct (Qltb bv y) eqn:Hlt.
    + apply Qltb_true in Hlt.
      intros [[-> Hall]|(k & m & -> & Hk & Hm & Hall)]%IH; right.
      * exists 0, y. split_and!; [lia|done..|].
        intros [|j] x Hx; simpl in Hx.
        -- injection Hx as <-. split; [apply Qle_refl|lia].
        -- split; [|lia]. apply Hall. by eapply list_elem_of_lookup_2.
      * exists (S k), m. split_and!; [lia|done|by eapply Qlt_trans|].
        intros [|j] x Hx; simpl in Hx.
        -- injection Hx as <-. split; [by apply Qlt_le_weak|done].
        -- destruct (Hall j x Hx) as [? Hj]. split; [done|].
           intros ?. apply Hj. lia.
    + apply Qltb_false in Hlt.
      intros [[-> Hall]|(k & m & -> & Hk & Hm & Hall)]%IH; [left|right].
      * split; [done|]. intros x [->|Hx]%elem_of_cons; [done|by apply Hall].
      * exists (S k), m. split_and!; [lia|done..|].
        intros [|j] x Hx; simpl in Hx.
        -- injection Hx as <-. split.
           ++ apply Qlt_le_weak. by eapply Qle_lt_trans.
           ++ intros _. by eapply Qle_lt_trans.
        -- destruct (Hall j x Hx) as [? Hj]. split; [done|].
           intros ?. apply Hj. lia.
Qed.

(** [np.argmax] returns the first position holding the greatest value. *)
Lemma np_argmax_spec (row : list Q) (i : nat) :
  np_argmax row = Ok i →
  ∃ m, row !! i = Some m
       ∧ ∀ j x, row !! j = Some x → (x <= m)%Q ∧ (j < i → (x < m)%Q).
Proof.
  destruct row as [|y row]; simpl; [discriminate|].
  intros [= [[-> Hall]|(k & m & -> & Hk & Hm & Hall)]%argmax_from_spec].
  - exists y. split; [done|]. intros [|j] x Hx; simpl in Hx.
    + injection Hx as <-. split; [apply Qle_refl|lia].
    + split; [|lia]. apply Hall. by eapply list_elem_of_lookup_2.
  - exists m. split; [done|]. intros [|j] x Hx; simpl in Hx.
    + injection Hx as <-. split; [by apply Qlt_le_weak|done].
    + destruct (Hall j x Hx) as [? Hj]. split; [done|].
      intros ?. apply Hj. lia.
Qed.

(** ** [max] with a key *)

Lemma max_from_spec {A} (key : A → Q) (l : list A) (best m : A) :
  max_from key best l = m →
  (m = best ∧ ∀ x, x ∈ l → (key x <= key best)%Q)
  ∨ ∃ i, l !! i = Some m ∧ (key best < key m)%Q
         ∧ ∀ j x, l !! j = Some x →
             (key x <= key m)%Q ∧ (j < i → (key x < key m)%Q).
Proof.
  revert best. induction l as [|x l IH]; intros best; simpl.
  - intros <-. left. split; [done|]. by intros x Hx%elem_of_nil.
  - destruct (Qltb (key best) (key x)) eqn:Hlt.
    + apply Qltb_true in Hlt.
      intros [[-> Hall]|(i & Hi & Hbest & Hall)]%IH; right.
      * exists 0. split_and!; [done..|]. intros [|j] y Hy; simpl in Hy.
        -- injection Hy as <-. split; [apply Qle_refl|lia].
        -- split; [|lia]. apply Hall. by eapply list_elem_of_lookup_2.
      * exists (S i). split_and!; [done|by eapply Qlt_trans|].
        intros [|j] y Hy; simpl in Hy.
        -- injection Hy as <-. split; [by apply Qlt_le_weak|done].
        -- destruct (Hall j y Hy) as [? Hj]. split; [done|].
           intros ?. apply Hj. lia.
    + apply Qltb_false in Hlt.
      intros [[-> Hall]|(i & Hi & Hbest & Hall)]%IH; [left|right].
      * split; [done|]. intros y [->|Hy]%elem_of_cons; [done|by apply Hall].
      * exists (S i). split_and!; [done..|].
        intros [|j] y Hy; simpl in Hy.
        -- injection Hy as <-. split.
           ++ apply Qlt_le_weak. by eapply Qle_lt_trans.
           ++ intros _. by eapply Qle_lt_trans.
        -- destruct (Hall j y Hy) as [? Hj]. split; [done|].
           intros ?. apply Hj. lia.
Qed.

(** [max] returns the first element whose key is greatest. *)
Lemma py_max_spec {A} (key : A → Q) (l : list A) (m : A) :
  py_max key l = Ok m →
  ∃ i, l !! i = Some m
       ∧ ∀ j x, l !! j = Some x →
           (key x <= key m)%Q ∧ (j < i → (key x < key m)%Q).
Proof.
  destruct l as [|best l]; simpl; [discriminate|].
  intros [= [[-> Hall]|(i & Hi & Hbest & Hall)]%max_from_spec].
  - exists 0. split; [done|]. intros [|j] y Hy; simpl in Hy.
    + injection Hy as <-. split; [apply Qle_refl|lia].
    + split; [|lia]. apply Hall. by eapply list_elem_of_lookup_2.
  - exists (S i). split; [done|]. intros [|j] y Hy; simpl in Hy.
    + injection Hy as <-. split; [by apply Qlt_le_weak|done].
    + destruct (Hall j y Hy) as [? Hj]. split; [done|].
      intros ?. apply Hj. lia.
Qed.

(** ** Stable descending sort *)

Lemma insert_desc_perm {A} (x : Q * A) (l : list (Q * A)) :
  insert_desc x l ≡ₚ x :: l.
Proof.
  induction l as [|y l IH]; simpl; [done|].
  destruct (Qltb x.1 y.1); [|done]. rewrite IH. apply Permutation_swap.
Qed.

Lemma sorted_reverse_perm {A} (l : list (Q * A)) : sorted_reverse l ≡ₚ l.
Proof.
  induction l as [|x l IH]; simpl; [done|].
  rewrite insert_desc_perm. by rewrite IH.
Qed.

Lemma sorted_reverse_length {A} (l : list (Q * A)) :
  length (sorted_reverse l) = length l.
Proof. by rewrite sorted_reverse_perm. Qed.

(** An element that comes before [y] also comes before what [y] precedes,
    as soon as its position is the smaller one. *)
Lemma precedes_le (x y : Q * nat) :
  (y.1 <= x.1)%Q → x.2 < y.2 → precedes x y.
Proof.
  intros [Hlt|Heq]%Qle_lteq Hpos; [by left|right].
  split; [by symmetry|done].
Qed.

Lemma precedes_key_le (x y : Q * nat) : precedes x y → (y.1 <= x.1)%Q.
Proof.
  intros [Hlt|[Heq _]]; [by apply Qlt_le_weak|].
  rewrite Heq. apply Qle_refl.
Qed.

Lemma insert_desc_sorted (x : Q * nat) (l : list (Q * nat)) :
  StronglySorted precedes l →
  (∀ y, y ∈ l → x.2 < y.2) →
  StronglySorted precedes (insert_desc x l).
Proof.
  induction 1 as [|y l Hl IH Hy]; intros Hpos; simpl.
  - repeat constructor.
  - destruct (Qltb x.1 y.1) eqn:Hlt.
    + apply Qltb_true in Hlt. constructor.
      * apply IH. intros z Hz. apply Hpos. by right.
      * rewrite Forall_forall. intros z Hz.
        rewrite insert_desc_perm in Hz.
        apply elem_of_cons in Hz as [->|Hz]; [by left|].
        rewrite Forall_forall in Hy. by apply Hy.
    + apply Qltb_false in Hlt. constructor; [by constructor|].
      rewrite Forall_forall. intros z Hz.
      apply precedes_le; [|by apply Hpos].
      apply elem_of_cons in Hz as [->|Hz]; [done|].
      rewrite Forall_forall in Hy.
      eapply Qle_trans; [|exact Hlt]. by apply precedes_key_le, Hy.
Qed.

Lemma sorted_reverse_sorted (l : list (Q * nat)) :
  StronglySorted (λ p q, p.2 < q.2) l →
  StronglySorted precedes (sorted_reverse l).
Proof.
  induction 1 as [|x l Hl IH Hx]; simpl; [constructor|].
  apply insert_desc_sorted; [done|].
  intros y Hy. rewrite sorted_reverse_perm in Hy.
  rewrite Forall_forall in Hx. by apply Hx.
Qed.

(** Scores tagged with their positions. *)
Lemma zip_seq_lookup (preds : list Q) (s n : nat) (p : Q) (i : nat) :
  (p, i) ∈ zip preds (seq s n) → s ≤ i ∧ preds !! (i - s) = Some p.
Proof.
  intros [j Hj]%list_elem_of_lookup.
  apply lookup_zip_with_Some in Hj as (p' & i' & [= <- <-] & Hp & Hi).
  apply lookup_seq in Hi as [-> _]. split; [lia|].
  by replace (s + j - s) with j by lia.
Qed.

Lemma zip_seq_sorted (preds : list Q) (s n : nat) :
  StronglySorted (λ p q : Q * nat, p.2 < q.2) (zip preds (seq s n)).
Proof.
  revert preds s. induction n as [|n IH]; intros preds s; simpl.
  - destruct preds; constructor.
  - destruct preds as [|p preds]; simpl; [constructor|].
    constructor; [apply IH|].
    rewrite Forall_forall. intros [q i] Hq. simpl.
    apply zip_seq_lookup in Hq as [? _]. lia.
Qed.

Lemma StronglySorted_impl_elem {A} (R R' : A → A → Prop) (l : list A) :
  (∀ x y, x ∈ l → y ∈ l → R x y → R' x y) →
  StronglySorted R l → StronglySorted R' l.
Proof.
  intros Himpl Hl. induction Hl as [|x l Hl IH Hx]; [constructor|].
  constructor.
  - apply IH. intros y z Hy Hz. apply Himpl; by right.
  - rewrite Forall_forall in *. intros y Hy.
    apply Himpl; [by left|by right|by apply Hx].
Qed.

Lemma StronglySorted_fmap_2 {A B} (f : A → B) (R : B → B → Prop) (l : list A) :
  StronglySorted (λ x y, R (f x) (f y)) l → StronglySorted R (f <$> l).
Proof.
  induction 1 as [|x l Hl IH Hx]; simpl; [constructor|].
  constructor; [done|]. by apply Forall_fmap.
Qed.

(** ** Dicts keyed by row number *)

Lemma dict_get_lookup {V} (d : list (nat * V)) (k : nat) (v : V) :
  NoDup d.*1 → (k, v) ∈ d → dict_get Nat.eqb k d = Ok v.
Proof.
  unfold dict_get. induction d as [|[k' v'] d IH]; simpl.
  - by intros _ ?%elem_of_nil.
  - intros [Hk' Hd]%NoDup_cons [[= <- <-]|Hin]%elem_of_cons.
    + by rewrite Nat.eqb_refl.
    + destruct (Nat.eqb_spec k' k) as [->|Hne].
      * exfalso. apply Hk'. apply list_elem_of_fmap. by exists (k, v).
      * by apply IH.
Qed.

(** ** [Entity2Rec] *)

Module Entity2RecProofs.
Import Entity2Rec.

(** C9. Constructing a [Property] never validates its typology: for every
    string [t], [Property(name, t)] is built and its typology reads back as
    [t], allowed or not. The [ValueError] comes from the setter alone, which
    raises exactly when the assigned value is none of [collaborative],
    [content] and [social], and stores the value otherwise. *)
Theorem Property_typology_checked_by_setter_only
    (n t : string) (p : Property) (value : string) :
  typology (Property_init n t) = t
  ∧ name (Property_init n t) = n
  ∧ (raises (set_typology p value)
     ↔ value ∉ ["collaborative"; "content"; "social"])
  ∧ (∀ e, set_typology p value = Err e → e = typology_error)
  ∧ (value ∈ ["collaborative"; "content"; "social"] →
     set_typology p value = Ok (mkProperty (name p) value)).
Proof.
  assert (Hcases :
    (value ∈ ["collaborative"; "content"; "social"]
     ∧ set_typology p value = Ok (mkProperty (name p) value))
    ∨ ((value ∉ ["collaborative"; "content"; "social"])
       ∧ set_typology p value = Err typology_error)).
  { rewrite !elem_of_cons, elem_of_nil.
    destruct (decide (value = "collaborative")) as [->|H1]; [by auto|].
    destruct (decide (value = "content")) as [->|H2]; [by auto|].
    destruct (decide (value = "social")) as [->|H3]; [by auto 6|].
    right. split; [by intros [?|[?|[?|[]]]]|].
    unfold set_typology. by rewrite !bool_decide_eq_true_2. }
  split_and!; [done|done| | |].
  - destruct Hcases as [[Hin ->]|[Hout ->]]; split; try done.
    + intros [e ?]; discriminate.
    + intros _. by eexists.
  - destruct Hcases as [[_ ->]|[_ ->]]; congruence.
  - destruct Hcases as [[_ ->]|[Hout _]]; done.
Qed.

(** C10. When no model has been trained or loaded ([self.model] is [None]),
    [recommend] with [average=False] raises whatever the other arguments
    are: the model branch has no row-mean fallback. On parallel arrays the
    exception is the [AttributeError] of [self.model.predict]. [predict] on
    the same instance, without a routing table, returns the row means. *)
Theorem recommend_without_model_raises
    (self : Entity2Rec) (user : pyval) (qids_test : list pyval)
    (x_test : list (list Q)) (items_test : list pyval) (N : Z) :
  model self = None →
  raises (recommend self user qids_test x_test items_test N false)
  ∧ (length qids_test ≤ length x_test →
     length qids_test ≤ length items_test →
     recommend self user qids_test x_test items_test N false
     = Err AttributeError)
  ∧ (routing self = None →
     predict self x_test qids_test = Ok (Scores (np_mean <$> x_test))).
Proof.
  intros Hm.
  assert (Hraise : ∀ features,
    recommend_preds self features false = Err AttributeError).
  { intros features. unfold recommend_preds. by rewrite Hm. }
  split_and!.
  - unfold recommend.
    destruct (np_take x_test _) as [features|e]; simpl; [|by eexists].
    destruct (np_take items_test _) as [candidates|e]; simpl; [|by eexists].
    rewrite Hraise. by eexists.
  - intros Hx Hi. unfold recommend.
    destruct (np_take_total x_test (np_where_eq qids_test user))
      as [features ->].
    { intros i Hi'%np_where_eq_elem%lookup_lt_Some. lia. }
    destruct (np_take_total items_test (np_where_eq qids_test user))
      as [candidates ->].
    { intros i Hi'%np_where_eq_elem%lookup_lt_Some. lia. }
    simpl. by rewrite Hraise.
  - intros Hr. unfold predict. by rewrite Hr, Hm.
Qed.

Lemma recommend_without_model_raises_witness :
  raises (recommend (Entity2Rec_init ["director"] false false false)
            (PStr "u") [PStr "u"] [[0.9; 0.1]%Q] [PStr "A"] 10 false).
Proof.
  apply (recommend_without_model_raises
           (Entity2Rec_init ["director"] false false false)
           (PStr "u") [PStr "u"] [[0.9; 0.1]%Q] [PStr "A"] 10).
  reflexivity.
Defined.

Lemma predict_row_Ok (self : Entity2Rec) (table : gmap string pyval)
    (qids_test : list pyval) (i : nat) (line out : list Q) :
  predict_row self table qids_test (i, line) = Ok out
  ↔ ∃ qid cluster m est,
      qids_test !! i = Some qid ∧ table !! py_str qid = Some cluster
      ∧ models self !! cluster = Some m ∧ estimators m = Some est
      ∧ out = est [line].
Proof.
  unfold predict_row, LambdaMART_predict. split.
  - destruct (qids_test !! i) as [qid|]; simpl; [|discriminate].
    destruct (table !! py_str qid) as [cluster|] eqn:Hc; simpl; [|discriminate].
    destruct (models self !! cluster) as [m|] eqn:Hm; simpl; [|discriminate].
    destruct (estimators m) as [est|] eqn:Hest; simpl; [|discriminate].
    intros [= <-]. by exists qid, cluster, m, est.
  - intros (qid & cluster & m & est & -> & Hc & Hm & Hest & ->). simpl.
    rewrite Hc. simpl. rewrite Hm. simpl. rewrite Hest. done.
Qed.

Lemma routing_Some (self : Entity2Rec) (table : gmap string pyval) :
  routing self = Some table ↔ user_to_cluster self = Some table ∧ table ≠ ∅.
Proof.
  unfold routing. destruct (user_to_cluster self) as [t|].
  - destruct (decide (t = ∅)) as [->|Hne]; split.
    + discriminate.
    + by intros [[= <-] H].
    + by intros [= <-].
    + by intros [[= <-] _].
  - split; [discriminate|]. by intros [[=] _].
Qed.

Lemma routing_None (self : Entity2Rec) :
  routing self = None
  ↔ user_to_cluster self = None ∨ user_to_cluster self = Some ∅.
Proof.
  unfold routing. destruct (user_to_cluster self) as [t|].
  - destruct (decide (t = ∅)) as [->|Hne]; split.
    + by right.
    + done.
    + discriminate.
    + by intros [[=]|[= ->]].
  - split; [by left|done].
Qed.

(** C5, as the specification states it, fails: the routing table is set,
    to a dict without entries, so the query id of the only row has no
    cluster mapping; [predict] does not fail the batch but falls back, to
    the row means when the instance has no model and to the flat model when
    it has one. *)
Lemma empty_routing_table_falls_back :
  user_to_cluster
    (mkEntity2Rec [Property_init "feedback" "collaborative"] None
       false false false ∅ (Some ∅))
  = Some ∅
  ∧ (∅ : gmap string pyval) !! py_str (PStr "v") = None
  ∧ predict
      (mkEntity2Rec [Property_init "feedback" "collaborative"] None
         false false false ∅ (Some ∅))
      [[0.5; 1.5]%Q] [PStr "v"]
    = Ok (Scores [np_mean [0.5; 1.5]%Q])
  ∧ predict
      (mkEntity2Rec [Property_init "feedback" "collaborative"]
         (Some (mkLambdaMART (NDCG 5) 100 0.1%Q 5 None
                  (Some (fmap (λ _, 7%Q)))))
         false false false ∅ (Some ∅))
      [[0.5; 1.5]%Q] [PStr "v"]
    = Ok (Scores [7%Q]).
Proof. split_and!; reflexivity. Qed.

(** C5, amended. The dispatch of [predict]. The test for the routing table
    is [if self.user_to_cluster:], so the table counts as set when it has at
    least one entry. With such a table, the call returns exactly when every
    row's query id has a cluster and the cluster a fitted model; the result
    then holds, for each row in input order, what that model predicts on
    the single row. A row whose query id has no cluster makes the whole
    call raise, and the flat model and the row means are never used. With
    no routing table, or one without entries, and without a model, the
    result is the list of row means, for every batch. *)
Theorem predict_dispatch
    (self : Entity2Rec) (x_test : list (list Q)) (qids_test : list pyval) :
  (∀ table : gmap string pyval,
     user_to_cluster self = Some table → table ≠ ∅ →
     (∀ rows,
        predict self x_test qids_test = Ok (PerRow rows)
        ↔ length rows = length x_test
          ∧ ∀ i line, x_test !! i = Some line →
              ∃ qid cluster m est,
                qids_test !! i = Some qid
                ∧ table !! py_str qid = Some cluster
                ∧ models self !! cluster = Some m
                ∧ estimators m = Some est
                ∧ rows !! i = Some (est [line]))
     ∧ (∀ preds, predict self x_test qids_test ≠ Ok (Scores preds))
     ∧ (∀ i qid,
          i < length x_test → qids_test !! i = Some qid →
          table !! py_str qid = None →
          raises (predict self x_test qids_test)))
  ∧ (user_to_cluster self = None ∨ user_to_cluster self = Some ∅ →
     model self = None →
     predict self x_test qids_test = Ok (Scores (np_mean <$> x_test))).
Proof.
  split.
  - intros table Hu Hne.
    assert (Hr : routing self = Some table) by by apply routing_Some.
    unfold predict. rewrite Hr. split_and!.
    + intros rows.
      destruct (mapM _ (enumerate x_test)) as [rows'|e] eqn:Hmap; simpl.
      * apply mapM_Ok in Hmap. split.
        -- intros [= <-]. split.
           { rewrite <- (Forall2_length _ _ _ Hmap). apply enumerate_length. }
           intros i line Hi.
           destruct (Forall2_lookup_l _ _ _ i (i, line) Hmap)
             as (out & Hout & Hrow); [by apply enumerate_lookup|].
           apply predict_row_Ok in Hrow
             as (qid & cluster & m & est & ? & ? & ? & ? & ->).
           by exists qid, cluster, m, est.
        -- intros [Hlen Hrows]. do 2 f_equal.
           apply list_eq_same_length with (length x_test);
             [done
             |by rewrite <- (Forall2_length _ _ _ Hmap), enumerate_length|].
           intros i out out' _ Hout Hout'.
           destruct (lookup_lt_is_Some_2 x_test i) as [line Hline].
           { rewrite <- Hlen. by eapply lookup_lt_Some. }
           destruct (Hrows i line Hline)
             as (qid & cluster & m & est & Hq & Hc & Hm & He & Hi).
           destruct (Forall2_lookup_l _ _ _ i (i, line) Hmap)
             as (out2 & Hout2 & Hrow); [by apply enumerate_lookup|].
           apply predict_row_Ok in Hrow
             as (qid' & cluster' & m' & est' & ? & ? & ? & ? & ->).
           simplify_eq. done.
      * split; [discriminate|]. intros [Hlen Hrows]. exfalso.
        assert (is_Ok (mapM (predict_row self table qids_test)
                            (enumerate x_test))) as [k Hk]; [|congruence].
        exists rows. apply mapM_Ok. apply Forall2_same_length_lookup.
        split; [by rewrite enumerate_length|].
        intros i [j line] out [Hj Hline]%enumerate_lookup Hout.
        simpl in *. subst j. apply predict_row_Ok.
        destruct (Hrows i line Hline)
          as (qid & cluster & m & est & Hq & Hc & Hm & He & Hi).
        exists qid, cluster, m, est. split_and!; try done. congruence.
    + intros preds. by destruct (mapM _ _).
    + intros i qid Hi Hq Hc.
      destruct (lookup_lt_is_Some_2 x_test i Hi) as [line Hline].
      assert (raises (mapM (predict_row self table qids_test)
                           (enumerate x_test))) as [e ->]; [|by eexists].
      apply mapM_raises with (i, line).
      * apply list_elem_of_lookup. exists i. by apply enumerate_lookup.
      * apply raises_not_Ok. intros [out Hout].
        apply predict_row_Ok in Hout as (? & ? & ? & ? & ? & ? & _).
        congruence.
  - intros Hu%routing_None Hm. unfold predict. by rewrite Hu, Hm.
Qed.

Lemma predict_dispatch_witness :
  raises (predict
            (mkEntity2Rec [Property_init "feedback" "collaborative"] None
               false false false ∅ (Some {["u" := PInt 1]}))
            [[0.5; 1.5]%Q] [PStr "v"])
  ∧ predict (Entity2Rec_init ["director"] false false false)
            [[0.5; 1.5]; [2; 4]]%Q [PStr "u"]
    = Ok (Scores (np_mean <$> [[0.5; 1.5]; [2; 4]]%Q)).
Proof.
  split.
  - destruct (predict_dispatch
                (mkEntity2Rec [Property_init "feedback" "collaborative"] None
                   false false false ∅ (Some {["u" := PInt 1]}))
                [[0.5; 1.5]%Q] [PStr "v"]) as [Hrouted _].
    destruct (Hrouted {["u" := PInt 1]}) as (_ & _ & Hmissing).
    + reflexivity.
    + apply insert_non_empty.
    + apply (Hmissing 0 (PStr "v")); [simpl; lia|reflexivity|reflexivity].
  - apply (predict_dispatch (Entity2Rec_init ["director"] false false false)
             [[0.5; 1.5]; [2; 4]]%Q [PStr "u"]).
    + left. reflexivity.
    + reflexivity.
Defined.

(** C3, as the specification states it, fails: with [collab_only] and
    [content_only] both set, the feature vector is computed and is the
    collaborative view; nothing is rejected. *)
Lemma overrides_conflict_not_rejected :
  1 < overrides_set (Entity2Rec_init ["director"] true true false)
  ∧ compute_user_item_features (λ _ _ _, Some 0.5%Q)
      (Entity2Rec_init ["director"] true true false)
      (PStr "u") (PStr "i") [PStr "a"] []
    = Ok [0.5%Q].
Proof. split; [unfold overrides_set; simpl; lia|reflexivity]. Qed.

(** C3, amended. The override flags are never a reason to reject: the three
    sub-scorers run as for any configuration, [compute_user_item_features]
    raises exactly when they do, and otherwise the first flag set, in the
    order [collab_only], [content_only], [social_only], selects the view
    returned; with no flag set the three views are concatenated. *)
Theorem overrides_first_match_wins
    (relatedness_score : string → pyval → pyval → option Q)
    (self : Entity2Rec) (user item : pyval)
    (items_liked_by_user users_liking_the_item : list pyval) :
  (raises (compute_user_item_features relatedness_score self user item
             items_liked_by_user users_liking_the_item)
   ↔ raises (_compute_scores relatedness_score self user item
               items_liked_by_user users_liking_the_item))
  ∧ ∀ collab content social,
      _compute_scores relatedness_score self user item
        items_liked_by_user users_liking_the_item
      = Ok (collab, content, social) →
      compute_user_item_features relatedness_score self user item
        items_liked_by_user users_liking_the_item
      = Ok (if collab_only self then collab
            else if content_only self then content
            else if social_only self then social
            else collab ++ content ++ social).
Proof.
  unfold compute_user_item_features.
  destruct (_compute_scores _ _ _ _ _ _) as [[[c ct] s]|e]; simpl.
  - split.
    + split; intros [e He]; exfalso; revert He;
        by repeat (case_match; try discriminate).
    + intros ??? [= <- <- <-]. by repeat case_match.
  - split; [|discriminate]. split; intros _; by exists e.
Qed.

Lemma overrides_first_match_wins_witness :
  compute_user_item_features (λ _ _ _, Some 0.5%Q)
    (Entity2Rec_init ["director"] false true true)
    (PStr "u") (PStr "i") [PStr "a"] [PStr "v"]
  = Ok [np_mean [0.5%Q]].
Proof.
  destruct (overrides_first_match_wins (λ _ _ _, Some 0.5%Q)
              (Entity2Rec_init ["director"] false true true)
              (PStr "u") (PStr "i") [PStr "a"] [PStr "v"]) as [_ Hview].
  apply (Hview [0.5%Q] [np_mean [0.5%Q]] []). reflexivity.
Defined.

(** C2, as the specification states it, fails: [fit] succeeds on a new
    instance, and a second [fit] on the instance it leaves succeeds too. *)
Lemma second_fit_not_rejected :
  trained (fit (λ _ _ _, Fitted (fmap np_mean))
             (Entity2Rec_init ["director"] false false false)
             ([[0.9; 0.1]%Q], [1%Q], [PStr "u"]) None None None
             "P" (Some 5%Z) 0.1%Q 100 5 None).1
  ∧ (fit (λ _ _ _, Fitted (fmap np_mean))
       (fit (λ _ _ _, Fitted (fmap np_mean))
          (Entity2Rec_init ["director"] false false false)
          ([[0.9; 0.1]%Q], [1%Q], [PStr "u"]) None None None
          "P" (Some 5%Z) 0.1%Q 100 5 None).1
       ([[0.2; 0.3]%Q], [0%Q], [PStr "v"]) None None None
       "NDCG" None 0.1%Q 100 5 None).2
    = Ok ().
Proof. split; [by eexists _, _|reflexivity]. Qed.

(** C2, amended. [fit] never looks at the model the instance holds: its
    outcome on an instance with any model [m] is its outcome on the same
    instance without it, so a trained instance is retrained in place. When
    the call returns, the instance it leaves is the same in both cases and
    holds a newly fitted model. *)
Theorem fit_replaces_model
    (lambdamart_fit :
       LambdaMART → Dataset → option (Dataset * Metric) → FitOutcome)
    (self : Entity2Rec) (m : option LambdaMART) (train : Dataset)
    (x_val : option (list (list Q))) (y_val : option (list Q))
    (qids_val : option (list pyval)) (optimize : string) (N : option Z)
    (lr : Q) (n_estimators max_depth : Z) (max_features : option Z) :
  (fit lambdamart_fit (set_model self m) train x_val y_val qids_val
     optimize N lr n_estimators max_depth max_features).2
  = (fit lambdamart_fit self train x_val y_val qids_val
       optimize N lr n_estimators max_depth max_features).2
  ∧ ((fit lambdamart_fit self train x_val y_val qids_val
        optimize N lr n_estimators max_depth max_features).2 = Ok () →
     (fit lambdamart_fit (set_model self m) train x_val y_val qids_val
        optimize N lr n_estimators max_depth max_features).1
     = (fit lambdamart_fit self train x_val y_val qids_val
          optimize N lr n_estimators max_depth max_features).1
     ∧ trained (fit lambdamart_fit self train x_val y_val qids_val
                  optimize N lr n_estimators max_depth max_features).1).
Proof.
  unfold fit. destruct (fit_metric optimize _) as [fm|e]; simpl.
  - destruct (lambdamart_fit _ train _) as [est|e built]; simpl.
    + split; [done|]. intros _. split; [done|]. by eexists _, _.
    + split; [done|discriminate].
  - split; [done|discriminate].
Qed.

Lemma fit_replaces_model_witness :
  trained (fit (λ _ _ _, Fitted (fmap np_mean))
             (Entity2Rec_init ["director"] false false false)
             ([[0.9; 0.1]%Q], [1%Q], [PStr "u"]) None None None
             "P" (Some 5%Z) 0.1%Q 100 5 None).1.
Proof.
  destruct (fit_replaces_model (λ _ _ _, Fitted (fmap np_mean))
              (Entity2Rec_init ["director"] false false false) None
              ([[0.9; 0.1]%Q], [1%Q], [PStr "u"]) None None None
              "P" (Some 5%Z) 0.1%Q 100 5 None) as [_ Hfit].
  apply Hfit. reflexivity.
Defined.

(** *** [recommend] *)

Lemma mapM_total {A B} (f : A → result B) (l : list A) :
  (∀ x, x ∈ l → is_Ok (f x)) → is_Ok (mapM f l).
Proof.
  induction l as [|x l IH]; intros Hall; simpl; [by eexists|].
  destruct (Hall x) as [y ->]; [by left|].
  destruct IH as [k ->]; [intros; apply Hall; by right|].
  by eexists.
Qed.

Lemma mapM_lookup_seq (preds : list Q) :
  mapM (λ x, or_raise IndexError (preds !! x)) (seq 0 (length preds))
  = Ok preds.
Proof.
  apply mapM_Ok. apply Forall2_same_length_lookup. split.
  - by rewrite length_seq.
  - intros i x p [-> _]%lookup_seq Hp. simpl. by rewrite Hp.
Qed.

Lemma np_where_eq_sorted (a : list pyval) (v : pyval) :
  StronglySorted lt (np_where_eq a v).
Proof.
  unfold np_where_eq, enumerate. generalize 0 as s.
  induction a as [|x a IH]; intros s; simpl; [constructor|].
  assert (Hge : Forall (lt s)
                  (filter (λ p : nat * pyval, p.2 = v)
                     (zip (seq (S s) (length a)) a)).*1).
  { rewrite Forall_forall. intros i ([i' y] & -> & Hi)%list_elem_of_fmap.
    apply list_elem_of_filter in Hi as [_ Hi].
    apply elem_of_zip_l in Hi. apply elem_of_seq in Hi. simpl. lia. }
  rewrite filter_cons. destruct (decide ((s, x).2 = v)); simpl; [|apply IH].
  constructor; [apply IH|done].
Qed.

Lemma candidate_entry_Ok (self : Entity2Rec) (features : list (list Q))
    (k : nat) (c : pyval) (e : nat * (pyval * string)) :
  candidate_entry self features (k, c) = Ok e
  ↔ ∃ row best prop,
      features !! k = Some row ∧ np_argmax row = Ok best
      ∧ properties self !! best = Some prop ∧ e = (k, (c, name prop)).
Proof.
  unfold candidate_entry. split.
  - destruct (features !! k) as [row|]; simpl; [|discriminate].
    destruct (np_argmax row) as [best|] eqn:Hbest; simpl; [|discriminate].
    destruct (properties self !! best) as [prop|] eqn:Hprop; simpl;
      [|discriminate].
    intros [= <-]. by exists row, best, prop.
  - intros (row & best & prop & -> & Hbest & Hprop & ->). simpl.
    rewrite Hbest. simpl. by rewrite Hprop.
Qed.

(** The selection of [recommend] over the rows [0 .. n-1] of one user, by
    the scores [preds]. *)
Lemma nlargest_positions (N : Z) (preds : list Q) :
  ∃ sel,
    nlargest N (seq 0 (length preds)) (λ x, or_raise IndexError (preds !! x))
    = Ok sel
    ∧ length sel = Z.to_nat (Z.min N (Z.of_nat (length preds)))
    ∧ NoDup sel
    ∧ (∀ k, k ∈ sel → k < length preds)
    ∧ StronglySorted (ranks_before preds) sel
    ∧ (∀ k j, k ∈ sel → j < length preds → j ∉ sel → ranks_before preds k j).
Proof.
  unfold nlargest. destruct (Z.leb_spec N 0) as [HN|HN].
  { exists []. split_and!; [done|simpl; lia|constructor| |constructor|].
    - by intros k ?%elem_of_nil.
    - by intros k j ?%elem_of_nil. }
  rewrite mapM_lookup_seq. simpl.
  set (tagged := zip preds (seq 0 (length preds))).
  set (m := Z.to_nat N).
  assert (Htag : ∀ x, x ∈ sorted_reverse tagged → preds !! x.2 = Some x.1).
  { intros [p i] Hx. rewrite sorted_reverse_perm in Hx.
    apply zip_seq_lookup in Hx as [_ Hx]. simpl.
    by replace (i - 0) with i in Hx by lia. }
  assert (Hrank : ∀ x y, x ∈ sorted_reverse tagged → y ∈ sorted_reverse tagged →
                         precedes x y → ranks_before preds x.2 y.2).
  { intros x y Hx%Htag Hy%Htag Hxy. by exists x.1, y.1. }
  assert (Hsnd : (sorted_reverse tagged).*2 ≡ₚ seq 0 (length preds)).
  { rewrite sorted_reverse_perm. unfold tagged.
    rewrite snd_zip; [done|by rewrite length_seq]. }
  assert (Hsorted : StronglySorted precedes (sorted_reverse tagged)).
  { apply sorted_reverse_sorted, zip_seq_sorted. }
  rewrite <- (take_drop m (sorted_reverse tagged)) in Hsorted.
  eexists. split; [done|]. split_and!.
  - rewrite length_fmap, length_take, sorted_reverse_length. unfold tagged.
    rewrite length_zip_with, length_seq. lia.
  - rewrite fmap_take. eapply sublist_NoDup; [|apply sublist_take].
    rewrite Hsnd. apply NoDup_seq.
  - intros k Hk. rewrite fmap_take in Hk. apply subseteq_take in Hk.
    rewrite Hsnd in Hk. apply elem_of_seq in Hk. lia.
  - apply StronglySorted_fmap_2.
    eapply StronglySorted_impl_elem;
      [|by eapply StronglySorted_app_1_l].
    intros x y Hx%subseteq_take Hy%subseteq_take. by apply Hrank.
  - intros k j Hk Hj Hnot.
    assert (j ∈ (sorted_reverse tagged).*2) as Hin.
    { rewrite Hsnd. apply elem_of_seq. lia. }
    rewrite <- (take_drop m (sorted_reverse tagged)), fmap_app in Hin.
    apply elem_of_app in Hin as [Hin|Hin]; [done|].
    apply list_elem_of_fmap in Hk as (x & -> & Hx).
    apply list_elem_of_fmap in Hin as (y & -> & Hy).
    apply Hrank; [by apply subseteq_take in Hx|by apply subseteq_drop in Hy|].
    by eapply StronglySorted_app_1_elem_of.
Qed.

Lemma Forall2_fst_eq {A B C} (l : list (A * B)) (k : list (A * C)) :
  Forall2 (λ x y, y.1 = x.1) l k → k.*1 = l.*1.
Proof. induction 1 as [|x y l k Hxy _ IH]; [done|]. rewrite !fmap_cons. by f_equal. Qed.

Lemma enumerate_fst {A} (l : list A) : (enumerate l).*1 = seq 0 (length l).
Proof. unfold enumerate. apply fst_zip. by rewrite length_seq. Qed.

(** C7, as the specification states it, fails: no row of the test arrays
    belongs to the user, yet with model-based scoring and no model the call
    raises instead of returning the empty list. *)
Lemma recommend_no_row_raises :
  np_where_eq [PStr "v"] (PStr "u") = []
  ∧ recommend (Entity2Rec_init ["director"] false false false)
      (PStr "u") [PStr "v"] [[0.5; 0.1]%Q] [PStr "A"] 2 false
    = Err AttributeError.
Proof. split; reflexivity. Qed.

(** C7, amended. [recommend] scoring by the row means, or by a fitted model
    that returns one score per row, on parallel test arrays in which every
    row of the user has an arg-max that names a property of the instance.
    The rows considered are exactly those whose query id is the user, in
    row order. The call returns; the list has [min(N, number of rows)]
    entries (none for [N <= 0]), one per selected row, holding the row's
    candidate and dominant property; the selected rows are distinct, in
    descending order of score with equal scores in row order, and each of
    them ranks before every row left out. Scoring by the row means for a
    user with no row returns the empty list on any arrays. For candidates
    [[A, B, C, D]] with scores [[0.9, 0.5, 0.9, 0.2]] and [N = 2] the
    result is [A] then [C]. *)
Theorem recommend_top_n
    (self : Entity2Rec) (user : pyval) (qids_test : list pyval)
    (x_test : list (list Q)) (items_test : list pyval) (N : Z)
    (average : bool) :
  (length qids_test ≤ length x_test →
   length qids_test ≤ length items_test →
   (average = true
    ∨ ∃ m est, model self = Some m ∧ estimators m = Some est
               ∧ ∀ rows, length (est rows) = length rows) →
   (∀ i row, qids_test !! i = Some user → x_test !! i = Some row →
      ∃ best prop, np_argmax row = Ok best
                   ∧ properties self !! best = Some prop) →
   ∃ features preds sel recs,
     (∀ i, i ∈ np_where_eq qids_test user ↔ qids_test !! i = Some user)
     ∧ StronglySorted lt (np_where_eq qids_test user)
     ∧ np_take x_test (np_where_eq qids_test user) = Ok features
     ∧ recommend_preds self features average = Ok preds
     ∧ recommend self user qids_test x_test items_test N average = Ok recs
     ∧ length recs
       = Z.to_nat (Z.min N (Z.of_nat (length (np_where_eq qids_test user))))
     ∧ Forall2 (λ k rec, ∃ i, np_where_eq qids_test user !! k = Some i
                              ∧ reports self x_test items_test i rec)
               sel recs
     ∧ NoDup sel
     ∧ StronglySorted (ranks_before preds) sel
     ∧ (∀ k j, k ∈ sel → j < length (np_where_eq qids_test user) →
               j ∉ sel → ranks_before preds k j))
  ∧ (average = true → (∀ q, q ∈ qids_test → q ≠ user) →
     recommend self user qids_test x_test items_test N average = Ok [])
  ∧ recommend (Entity2Rec_init ["director"] false false false) (PStr "u")
      [PStr "u"; PStr "u"; PStr "u"; PStr "u"]
      [[0.9]; [0.5]; [0.9]; [0.2]]%Q
      [PStr "A"; PStr "B"; PStr "C"; PStr "D"] 2 true
    = Ok [(PStr "A", "director"); (PStr "C", "director")].
Proof.
  split_and!; [| |reflexivity].
  - intros Hx Hitems Hscore Hrows.
    set (idx := np_where_eq qids_test user).
    assert (Hidx : ∀ i, i ∈ idx → i < length qids_test).
    { by intros i ?%np_where_eq_elem%lookup_lt_Some. }
    destruct (np_take_total x_test idx) as [features Hf];
      [intros i ?%Hidx; lia|].
    destruct (np_take_total items_test idx) as [candidates Hc];
      [intros i ?%Hidx; lia|].
    pose proof Hf as Hf2. pose proof Hc as Hc2.
    apply np_take_Ok in Hf2. apply np_take_Ok in Hc2.
    pose proof (Forall2_length _ _ _ Hf2) as Hflen.
    pose proof (Forall2_length _ _ _ Hc2) as Hclen.
    (* the scores *)
    assert (∃ preds, recommend_preds self features average = Ok preds
                     ∧ length preds = length idx) as (preds & Hp & Hplen).
    { unfold recommend_preds.
      destruct Hscore as [->|(m & est & Hm & Hest & Hlen)]; simpl.
      - eexists. split; [done|]. by rewrite length_fmap.
      - destruct average; simpl.
        + eexists. split; [done|]. by rewrite length_fmap.
        + rewrite Hm. simpl. unfold LambdaMART_predict. rewrite Hest. simpl.
          eexists. split; [done|]. by rewrite Hlen. }
    (* the dict of candidates *)
    assert (Hentry : ∀ k c, candidates !! k = Some c →
      ∃ i row best prop,
        idx !! k = Some i ∧ items_test !! i = Some c
        ∧ x_test !! i = Some row ∧ features !! k = Some row
        ∧ np_argmax row = Ok best ∧ properties self !! best = Some prop).
    { intros k c Hk.
      destruct (Forall2_lookup_r _ _ _ _ _ Hc2 Hk) as (i & Hi & Hitem).
      destruct (Forall2_lookup_l _ _ _ _ _ Hf2 Hi) as (row & Hrow & Hxrow).
      destruct (Hrows i row) as (best & prop & Hbest & Hprop);
        [apply np_where_eq_elem; by eapply list_elem_of_lookup_2|done|].
      by exists i, row, best, prop. }
    destruct (mapM_total (candidate_entry self features) (enumerate candidates))
      as [ci Hci].
    { intros [k c] [j [<- Hk]%enumerate_lookup]%list_elem_of_lookup.
      simpl in Hk.
      destruct (Hentry _ _ Hk) as (i & row & best & prop & ? & ? & ? & ? & ? & ?).
      eexists. apply candidate_entry_Ok. by exists row, best, prop. }
    pose proof Hci as Hci2. apply mapM_Ok in Hci2.
    assert (Hkeys : ci.*1 = seq 0 (length preds)).
    { rewrite Hplen, Hclen, <- enumerate_fst. apply Forall2_fst_eq.
      eapply Forall2_impl; [exact Hci2|].
      intros [k c] e (? & ? & ? & _ & _ & _ & ->)%candidate_entry_Ok. done. }
    (* the selection *)
    destruct (nlargest_positions N preds)
      as (sel & Hsel & Hlen & Hnodup & Hbound & Hsorted & Hout).
    (* the entries read back *)
    assert (Hread : ∀ k, k ∈ sel →
      ∃ rec, dict_get Nat.eqb k ci = Ok rec
             ∧ ∃ i, idx !! k = Some i ∧ reports self x_test items_test i rec).
    { intros k Hk%Hbound.
      destruct (lookup_lt_is_Some_2 candidates k) as [c Hkc]; [lia|].
      destruct (Forall2_lookup_l _ _ _ k (k, c) Hci2)
        as (e & He & Hentry'); [by apply enumerate_lookup|].
      apply candidate_entry_Ok in Hentry'
        as (row & best & prop & Hrow & Hbest & Hprop & ->).
      destruct (Hentry _ _ Hkc)
        as (i & row' & _ & _ & Hi & Hitem & Hxrow & Hrow' & _ & _).
      assert (row' = row) as -> by congruence.
      exists (c, name prop). split.
      - apply dict_get_lookup; [rewrite Hkeys; apply NoDup_seq|].
        by eapply list_elem_of_lookup_2.
      - exists i. split; [done|]. by exists row, best, prop. }
    destruct (mapM_total (λ index, dict_get Nat.eqb index ci) sel)
      as [recs Hrecs].
    { intros k (rec & -> & _)%Hread. by eexists. }
    exists features, preds, sel, recs. split_and!.
    + apply np_where_eq_elem.
    + apply np_where_eq_sorted.
    + done.
    + done.
    + unfold recommend. fold idx. rewrite Hf, Hc. simpl. rewrite Hp. simpl.
      rewrite Hci. simpl. rewrite Hkeys, Hsel. simpl. done.
    + rewrite (mapM_Ok_length _ _ _ Hrecs), Hlen, Hplen. done.
    + apply mapM_Ok in Hrecs.
      apply Forall2_same_length_lookup. split; [by eapply Forall2_length|].
      intros j k rec Hk Hrec.
      destruct (Forall2_lookup_l _ _ _ _ _ Hrecs Hk) as (rec' & Hrec' & Hget).
      destruct (Hread k) as (rec'' & Hget' & Hrep);
        [by eapply list_elem_of_lookup_2|].
      assert (rec = rec'') as -> by congruence. exact Hrep.
    + done.
    + done.
    + intros k j Hk Hj. apply Hout; [done|]. by rewrite Hplen.
  - intros -> Hnone.
    assert (np_where_eq qids_test user = []) as Hidx.
    { destruct (np_where_eq qids_test user) as [|i idx] eqn:Heq; [done|].
      exfalso. apply (Hnone user); [|done].
      assert (i ∈ np_where_eq qids_test user) as Hi by (rewrite Heq; by left).
      apply np_where_eq_elem in Hi. by eapply list_elem_of_lookup_2. }
    unfold recommend. rewrite Hidx. simpl. unfold nlargest.
    destruct (N <=? 0)%Z; simpl; [done|]. by rewrite take_nil.
Qed.

Lemma recommend_top_n_witness :
  ∃ recs,
    recommend (Entity2Rec_init ["director"] false false false) (PStr "u")
      [PStr "u"; PStr "v"; PStr "u"] [[0.9]; [0.5]; [0.9]]%Q
      [PStr "A"; PStr "B"; PStr "C"] 1 true = Ok recs
    ∧ length recs = 1.
Proof.
  destruct (recommend_top_n (Entity2Rec_init ["director"] false false false)
              (PStr "u") [PStr "u"; PStr "v"; PStr "u"]
              [[0.9]; [0.5]; [0.9]]%Q [PStr "A"; PStr "B"; PStr "C"] 1 true)
    as [Hrows _].
  destruct Hrows
    as (features & preds & sel & recs & _ & _ & _ & _ & Hrecs & Hlen & _).
  - simpl. lia.
  - simpl. lia.
  - by left.
  - intros i row _ Hrow.
    exists 0, (Property_init "director" "content").
    destruct i as [|[|[|i]]]; simpl in Hrow; [..|discriminate];
      injection Hrow as <-; split; reflexivity.
  - exists recs. split; [exact Hrecs|exact Hlen].
Defined.

(** *** The dominant property *)

Lemma _set_properties_app (props : list Property) (relations : list string) :
  _set_properties props relations
  = props ++ ((λ r, Property_init r "content") <$> relations)
    ++ [Property_init "feedback" "collaborative"].
Proof.
  unfold _set_properties. rewrite (assoc_L (++)). f_equal.
  revert props. induction relations as [|r relations IH]; intros props; simpl.
  - by rewrite app_nil_r.
  - rewrite IH. by rewrite <- (assoc_L (++)).
Qed.

Lemma filter_content_properties (t : string) (relations : list string) :
  filter (λ prop, typology prop = t)
         ((λ r, Property_init r "content") <$> relations)
  = if decide (t = "content")
    then (λ r, Property_init r "content") <$> relations else [].
Proof.
  induction relations as [|r relations IH]; [by case_decide|].
  rewrite fmap_cons, filter_cons, IH. unfold typology at 1. simpl.
  destruct (decide (t = "content")) as [->|Hne].
  - by rewrite decide_True.
  - by rewrite decide_False.
Qed.

(** C1. Where the code departs from the claim. An instance built by
    [__init__] registers the content relations first and [feedback] last,
    while the feature vector starts with the collaborative slot: slot [k] of
    the vector belongs to the property [k] of ["feedback" :: relations], and
    [recommend] names the property [k] of [relations ++ ["feedback"]]. On
    the instance with the single relation [director] and a row whose
    greatest feature is the [feedback] score, in slot 0, [recommend] reports
    [director]. *)
Theorem recommend_dominant_property_misaligned :
  (∀ relations,
     feature_layout (Entity2Rec_init relations false false false)
     = "feedback" :: relations
     ∧ name <$> properties (Entity2Rec_init relations false false false)
       = relations ++ ["feedback"])
  ∧ compute_user_item_features
      (λ prop _ _, if decide (prop = "feedback") then Some 0.9%Q
                   else Some 0.1%Q)
      (Entity2Rec_init ["director"] false false false)
      (PStr "u") (PStr "i") [PStr "j"] []
    = Ok [0.9; 0.1]%Q
  ∧ np_argmax [0.9; 0.1]%Q = Ok 0
  ∧ feature_layout (Entity2Rec_init ["director"] false false false) !! 0
    = Some "feedback"
  ∧ recommend (Entity2Rec_init ["director"] false false false) (PStr "u")
      [PStr "u"] [[0.9; 0.1]%Q] [PStr "i"] 10 true
    = Ok [(PStr "i", "director")].
Proof.
  split_and!; [|reflexivity..].
  intros relations. unfold feature_layout, Entity2Rec_init. simpl.
  rewrite _set_properties_app. simpl.
  rewrite !filter_app, !filter_content_properties. simpl.
  rewrite !fmap_app, <- !list_fmap_compose. simpl.
  assert (Hnames :
    name ∘ (λ r, Property_init r "content") <$> relations = relations).
  { apply list_eq. intros i. rewrite list_lookup_fmap.
    by destruct (relations !! i). }
  by rewrite Hnames, !app_nil_r.
Qed.

End Entity2RecProofs.

(** ** The PageRank recommender *)

Module PageRankProofs.
Import PageRank.

(** *** Graph primitives *)

Lemma add_node_nodes (g : Graph) (x n : pyval) :
  n ∈ nodes (add_node g x) ↔ n ∈ nodes g ∨ n = x.
Proof.
  unfold add_node. destruct (decide (x ∈ nodes g)) as [Hx|Hx]; simpl.
  - split; [by left|]. by intros [?| ->].
  - rewrite elem_of_app, list_elem_of_singleton. done.
Qed.

Lemma add_node_edges (g : Graph) (x : pyval) : edges (add_node g x) = edges g.
Proof. unfold add_node. by destruct (decide (x ∈ nodes g)). Qed.

Lemma add_node_has_edge (g : Graph) (x a b : pyval) :
  has_edge (add_node g x) a b ↔ has_edge g a b.
Proof. unfold has_edge. by rewrite add_node_edges. Qed.

Lemma add_edge_nodes (g : Graph) (u v n : pyval) :
  n ∈ nodes (add_edge g u v) ↔ n ∈ nodes g ∨ n = u ∨ n = v.
Proof.
  unfold add_edge.
  destruct (decide (has_edge (add_node (add_node g u) v) u v)); simpl;
    rewrite !add_node_nodes; tauto.
Qed.

Lemma add_edge_has_edge (g : Graph) (u v a b : pyval) :
  has_edge (add_edge g u v) a b
  ↔ has_edge g a b ∨ (a = u ∧ b = v) ∨ (a = v ∧ b = u).
Proof.
  unfold add_edge.
  destruct (decide (has_edge (add_node (add_node g u) v) u v)) as [He|He].
  - rewrite !add_node_has_edge in *. split; [by left|].
    intros [?|[[-> ->]|[-> ->]]]; [done|done|].
    unfold has_edge in *. tauto.
  - unfold has_edge at 1. simpl. rewrite !elem_of_app, !list_elem_of_singleton.
    rewrite !add_node_edges. unfold has_edge. split.
    + intros [[?|[= -> ->]]|[?|[= -> ->]]]; tauto.
    + intros [[?|?]|[[-> ->]|[-> ->]]]; tauto.
Qed.

(** *** The two loops of [construct_collaborative_graph] *)

(** The loop over the ratings of one user, from a graph [g]. *)
Lemma ratings_loop_nodes (only_positive : bool) (user_id : pyval)
    (ratings : list Rating) (g : Graph) (n : pyval) :
  n ∈ nodes (foldl (λ graph r,
                      if skipped only_positive r then graph
                      else add_edge (add_node graph (PInt (e_idx r)))
                                    user_id (PInt (e_idx r)))
                   g ratings)
  ↔ n ∈ nodes g
    ∨ ∃ r, r ∈ ratings ∧ skipped only_positive r = false
           ∧ (n = PInt (e_idx r) ∨ n = user_id).
Proof.
  revert g. induction ratings as [|r ratings IH]; intros g; simpl.
  - split; [by left|]. intros [?|(r & Hr & _)]; [done|]. by apply elem_of_nil in Hr.
  - rewrite IH. destruct (skipped only_positive r) eqn:Hs.
    + split.
      * intros [?|(r' & Hr' & ? & ?)]; [by left|].
        right. exists r'. split_and!; [by right|done|done].
      * intros [?|(r' & Hr' & Hs' & ?)]; [by left|].
        apply elem_of_cons in Hr' as [->|Hr']; [congruence|].
        right. by exists r'.
    + rewrite add_edge_nodes, add_node_nodes. split.
      * intros [[[?|?]|[?|?]]|(r' & Hr' & ? & ?)]; try (by left).
        all: right; first [exists r; split_and!; [by left|done|tauto]
                          |exists r'; split_and!; [by right|done|done]].
      * intros [?|(r' & Hr' & Hs' & Hn)]; [tauto|].
        apply elem_of_cons in Hr' as [->|Hr']; [tauto|].
        right. by exists r'.
Qed.

Lemma ratings_loop_has_edge (only_positive : bool) (user_id : pyval)
    (ratings : list Rating) (g : Graph) (a b : pyval) :
  has_edge (foldl (λ graph r,
                     if skipped only_positive r then graph
                     else add_edge (add_node graph (PInt (e_idx r)))
                                   user_id (PInt (e_idx r)))
                  g ratings) a b
  ↔ has_edge g a b
    ∨ ∃ r, r ∈ ratings ∧ skipped only_positive r = false
           ∧ ((a = user_id ∧ b = PInt (e_idx r))
              ∨ (a = PInt (e_idx r) ∧ b = user_id)).
Proof.
  revert g. induction ratings as [|r ratings IH]; intros g; simpl.
  - split; [by left|]. intros [?|(r & Hr & _)]; [done|]. by apply elem_of_nil in Hr.
  - rewrite IH. destruct (skipped only_positive r) eqn:Hs.
    + split.
      * intros [?|(r' & Hr' & ? & ?)]; [by left|].
        right. exists r'. split_and!; [by right|done|done].
      * intros [?|(r' & Hr' & Hs' & ?)]; [by left|].
        apply elem_of_cons in Hr' as [->|Hr']; [congruence|].
        right. by exists r'.
    + rewrite add_edge_has_edge, add_node_has_edge. split.
      * intros [[?|?]|(r' & Hr' & ? & ?)]; [by left| |].
        -- right. exists r. split_and!; [by left|done|tauto].
        -- right. exists r'. split_and!; [by right|done|done].
      * intros [?|(r' & Hr' & Hs' & Hn)]; [tauto|].
        apply elem_of_cons in Hr' as [->|Hr']; [tauto|].
        right. by exists r'.
Qed.

Lemma construct_collaborative_graph_nodes (graph : Graph)
    (training : Training) (only_positive : bool) (n : pyval) :
  n ∈ nodes (construct_collaborative_graph graph training only_positive)
  ↔ n ∈ nodes graph
    ∨ (∃ user ratings, (user, ratings) ∈ training ∧ n = user_node user)
    ∨ (∃ user ratings r,
         (user, ratings) ∈ training ∧ r ∈ ratings
         ∧ skipped only_positive r = false ∧ n = PInt (e_idx r)).
Proof.
  unfold construct_collaborative_graph. revert graph.
  induction training as [|[user ratings] training IH]; intros graph; simpl.
  - split; [by left|].
    intros [?|[(u & rs & H & _)|(u & rs & r & H & _)]]; [done| |];
      by apply elem_of_nil in H.
  - rewrite IH, ratings_loop_nodes, add_node_nodes. split.
    + intros [[[?|?]|(r & Hr & Hs & [?|?])]|[(u & rs & H & ?)|(u & rs & r & H & ?)]].
      * by left.
      * right; left. exists user, ratings. split; [by left|done].
      * right; right. exists user, ratings, r. split_and!; [by left|done..].
      * right; left. exists user, ratings. split; [by left|done].
      * right; left. exists u, rs. split; [by right|done].
      * right; right. exists u, rs, r. split; [by right|done].
    + intros [?|[(u & rs & H & ->)|(u & rs & r & H & Hr & Hs & ->)]].
      * tauto.
      * apply elem_of_cons in H as [[= -> ->]|H]; [tauto|].
        right; left. by exists u, rs.
      * apply elem_of_cons in H as [[= -> ->]|H].
        -- left; right. exists r. tauto.
        -- right; right. by exists u, rs, r.
Qed.

Lemma construct_collaborative_graph_has_edge (graph : Graph)
    (training : Training) (only_positive : bool) (a b : pyval) :
  has_edge (construct_collaborative_graph graph training only_positive) a b
  ↔ has_edge graph a b
    ∨ ∃ user ratings r,
        (user, ratings) ∈ training ∧ r ∈ ratings
        ∧ skipped only_positive r = false
        ∧ ((a = user_node user ∧ b = PInt (e_idx r))
           ∨ (a = PInt (e_idx r) ∧ b = user_node user)).
Proof.
  unfold construct_collaborative_graph. revert graph.
  induction training as [|[user ratings] training IH]; intros graph; simpl.
  - split; [by left|].
    intros [?|(u & rs & r & H & _)]; [done|]. by apply elem_of_nil in H.
  - rewrite IH, ratings_loop_has_edge, add_node_has_edge. split.
    + intros [[?|(r & Hr & Hs & ?)]|(u & rs & r & H & ?)].
      * by left.
      * right. exists user, ratings, r. split_and!; [by left|done..].
      * right. exists u, rs, r. split; [by right|done].
    + intros [?|(u & rs & r & H & Hr & Hs & Hab)]; [tauto|].
      apply elem_of_cons in H as [[= -> ->]|H].
      * left; right. by exists r.
      * right. by exists u, rs, r.
Qed.

Lemma skipped_false (only_positive : bool) (r : Rating) :
  skipped only_positive r = false ↔ (only_positive = true → rating r = 1%Z).
Proof.
  unfold skipped. destruct only_positive; simpl.
  - rewrite bool_decide_eq_false. split.
    + intros H _. by destruct (decide (rating r = 1%Z)).
    + intros H Hne. by apply Hne, H.
  - split; [discriminate|done].
Qed.

(** C8. The graph built from a new [Graph()]. Every (user, ratings) pair of
    the training set gives the node [user_<user>]; every rating gives the
    node of its entity and the edge between the user node and it, unless
    [only_positive] is set and the rating is not [1]. No other edge exists:
    an edge between a user node and an entity comes from a rating that was
    not skipped, and an entity is a node only if such a rating mentions it.
    For [[(u1, [rating(e1, 1), rating(e2, 0)])]] with [only_positive] the
    edge [(user_u1, e1)] is there, the edge [(user_u1, e2)] and the node
    [e2] are not. *)
Theorem construct_collaborative_graph_contents
    (training : Training) (only_positive : bool) :
  (∀ user ratings,
     (user, ratings) ∈ training →
     has_node (construct_collaborative_graph empty_graph training only_positive)
              (user_node user)
     ∧ ∀ r, r ∈ ratings → (only_positive = true → rating r = 1%Z) →
         has_node
           (construct_collaborative_graph empty_graph training only_positive)
           (PInt (e_idx r))
         ∧ has_edge
             (construct_collaborative_graph empty_graph training only_positive)
             (user_node user) (PInt (e_idx r)))
  ∧ (∀ n e,
       has_edge (construct_collaborative_graph empty_graph training only_positive)
                n (PInt e) →
       ∃ user ratings r,
         (user, ratings) ∈ training ∧ r ∈ ratings
         ∧ (only_positive = true → rating r = 1%Z)
         ∧ n = user_node user ∧ e = e_idx r)
  ∧ (∀ e,
       has_node (construct_collaborative_graph empty_graph training only_positive)
                (PInt e) →
       ∃ user ratings r,
         (user, ratings) ∈ training ∧ r ∈ ratings
         ∧ (only_positive = true → rating r = 1%Z) ∧ e = e_idx r)
  ∧ has_edge (construct_collaborative_graph empty_graph
                [(PStr "u1", [mkRating 1 1; mkRating 2 0])] true)
             (PStr "user_u1") (PInt 1)
  ∧ ¬ has_edge (construct_collaborative_graph empty_graph
                  [(PStr "u1", [mkRating 1 1; mkRating 2 0])] true)
               (PStr "user_u1") (PInt 2)
  ∧ ¬ has_node (construct_collaborative_graph empty_graph
                  [(PStr "u1", [mkRating 1 1; mkRating 2 0])] true)
               (PInt 2).
Proof.
  split_and!.
  - intros user ratings Hin. split.
    + apply construct_collaborative_graph_nodes. right; left.
      by exists user, ratings.
    + intros r Hr Hkeep%skipped_false. split.
      * apply construct_collaborative_graph_nodes. right; right.
        by exists user, ratings, r.
      * apply construct_collaborative_graph_has_edge. right.
        exists user, ratings, r. split_and!; [done..|by left].
  - intros n e [H|(user & ratings & r & Hin & Hr & Hs & H)]
      %construct_collaborative_graph_has_edge.
    + destruct H as [H|H]; by apply elem_of_nil in H.
    + exists user, ratings, r. split_and!; [done|done|by apply skipped_false|..];
        destruct H as [[-> [= ->]]|[_ [=]]]; done.
  - intros e [H|[(user & ratings & _ & [=])|(user & ratings & r & Hin & Hr & Hs & [= ->])]]
      %construct_collaborative_graph_nodes.
    + by apply elem_of_nil in H.
    + exists user, ratings, r. split_and!; [done|done|by apply skipped_false|done].
  - compute_done.
  - compute_done.
  - compute_done.
Qed.

(** *** The loops of [fit] *)

Section fit_loops.
Context (pagerank_scipy :
  option Graph → option Q → list (pyval * Z) → result (list (pyval * Q))).
Implicit Types (self : PageRankRecommender) (alpha : Q)
  (validation : list (pyval * ValidationTuple)).

Lemma get_source_nodes_error self user e :
  get_source_nodes self user = Err e → e = KeyError.
Proof.
  unfold get_source_nodes.
  destruct (user_ratings self !! user); simpl; congruence.
Qed.

(** An exception that leaves [_scores] is the engine's own. *)
Lemma _scores_error self (a : option Q) source_nodes items e :
  _scores pagerank_scipy self a source_nodes items = Err e
  ↔ pagerank_scipy (graph self) a
      (dict_of pyval_eqb ((λ entity, (PInt entity, 1%Z)) <$> source_nodes))
    = Err e.
Proof.
  unfold _scores. destruct (pagerank_scipy _ _ _); simpl; split; congruence.
Qed.

Lemma _validate_error self alpha source_nodes item negatives e :
  _validate pagerank_scipy self alpha source_nodes item negatives = Err e
  ↔ pagerank_scipy (graph self) (Some alpha)
      (dict_of pyval_eqb ((λ entity, (PInt entity, 1%Z)) <$> source_nodes))
    = Err e.
Proof.
  rewrite <- (_scores_error self (Some alpha) source_nodes (item :: negatives)).
  unfold _validate.
  destruct (_scores _ _ _ _ _) eqn:Hs; simpl; split; congruence.
Qed.

Lemma eligible_cons_true self user vt s src :
  get_source_nodes self user = Ok (s :: src) → eligible self (user, vt) = true.
Proof. unfold eligible. simpl. by intros ->. Qed.

Lemma eligible_cons_false self user vt :
  get_source_nodes self user = Ok [] → eligible self (user, vt) = false.
Proof. unfold eligible. simpl. by intros ->. Qed.

(** What a pass over the validation set adds to the two counters: one to
    [count] for every eligible entry, one to [hits] for every eligible entry
    that is a hit. *)
Lemma validation_pass_Ok self alpha validation hits count hits' count' :
  validation_pass pagerank_scipy self alpha validation hits count
  = Ok (hits', count') →
  count' = (count + Z.of_nat
              (length (filter (λ entry, eligible self entry) validation)))%Z
  ∧ hits' = (hits + Z.of_nat
               (length (filter (λ entry, is_hit pagerank_scipy self alpha entry)
                          (filter (λ entry, eligible self entry) validation))))%Z.
Proof.
  revert hits count.
  induction validation as [|[user [item negatives]] validation IH];
    intros hits count; simpl.
  - intros [= <- <-]. lia.
  - destruct (get_source_nodes self user) as [[|s src]|e] eqn:Hsrc; simpl;
      [| |discriminate].
    + intros H%IH. rewrite filter_cons_False; [exact H|].
      rewrite (eligible_cons_false _ _ _ Hsrc). by intros [].
    + destruct (_validate _ _ _ _ _ _) as [hit|e] eqn:Hv; simpl; [|discriminate].
      intros [-> ->]%IH.
      rewrite (filter_cons_True (λ entry, eligible self entry));
        [|by rewrite (eligible_cons_true _ _ _ _ _ Hsrc)].
      assert (Hhit : is_hit pagerank_scipy self alpha (user, (item, negatives))
                     = hit).
      { unfold is_hit. simpl. by rewrite Hsrc, Hv. }
      destruct hit.
      * rewrite filter_cons_True; [|by apply Is_true_true]. simpl. lia.
      * rewrite filter_cons_False; [|intros ?%Is_true_true; congruence].
        simpl. lia.
Qed.

Lemma engine_raises_cons self alpha entry validation e :
  engine_raises pagerank_scipy self alpha validation e →
  engine_raises pagerank_scipy self alpha (entry :: validation) e.
Proof.
  intros (entry' & src & Hin & Hsrc & Hne & Hpr).
  exists entry', src. split_and!; [by right|done..].
Qed.

(** A pass over the validation set raises the [KeyError] of a user without
    recorded ratings, or what the engine raised on an evaluated entry. *)
Lemma validation_pass_error self alpha validation hits count e :
  validation_pass pagerank_scipy self alpha validation hits count = Err e →
  e = KeyError ∨ engine_raises pagerank_scipy self alpha validation e.
Proof.
  revert hits count.
  induction validation as [|[user [item negatives]] validation IH];
    intros hits count; simpl; [discriminate|].
  destruct (get_source_nodes self user) as [[|s src]|e'] eqn:Hsrc; simpl.
  - intros [?|?]%IH; [by left|right; by apply engine_raises_cons].
  - destruct (_validate _ _ _ _ _ _) as [hit|e'] eqn:Hv; simpl.
    + intros [?|?]%IH; [by left|right; by apply engine_raises_cons].
    + intros [= <-]. right. apply _validate_error in Hv.
      exists (user, (item, negatives)), (s :: src).
      split_and!; [by left|done|done|done].
  - intros [= <-]. left. by eapply get_source_nodes_error.
Qed.

Lemma validation_pass_total self alpha validation hits count :
  (∀ g a p, is_Ok (pagerank_scipy g a p)) →
  (∀ entry, entry ∈ validation → is_Ok (get_source_nodes self entry.1)) →
  is_Ok (validation_pass pagerank_scipy self alpha validation hits count).
Proof.
  intros Hpr. revert hits count.
  induction validation as [|[user [item negatives]] validation IH];
    intros hits count Hknown; simpl; [by eexists|].
  destruct (Hknown (user, (item, negatives))) as [src Hsrc]; [by left|].
  simpl in Hsrc. rewrite Hsrc. simpl.
  assert (Hrest : ∀ entry, entry ∈ validation →
                           is_Ok (get_source_nodes self entry.1)).
  { intros entry ?. apply Hknown. by right. }
  destruct src as [|s src]; simpl; [by apply IH|].
  unfold _validate, _scores.
  destruct (Hpr (graph self) (Some alpha)
              (dict_of pyval_eqb ((λ entity, (PInt entity, 1%Z)) <$> s :: src)))
    as [scores ->].
  simpl. by apply IH.
Qed.

(** [true_div] raises exactly on a zero denominator. *)
Lemma true_div_Ok hits count ratio :
  true_div hits count = Ok ratio
  ↔ count ≠ 0%Z ∧ ratio = (inject_Z hits / inject_Z count)%Q.
Proof.
  unfold true_div. destruct (Z.eqb_spec count 0) as [->|Hne].
  - split; [discriminate|]. by intros [? _].
  - split; [by intros [= <-]|]. by intros [_ ->].
Qed.

Lemma true_div_error hits count e :
  true_div hits count = Err e ↔ count = 0%Z ∧ e = ZeroDivisionError.
Proof.
  unfold true_div. destruct (Z.eqb_spec count 0) as [->|Hne].
  - split; [by intros [= <-]|]. by intros [_ ->].
  - split; [discriminate|]. by intros [? _].
Qed.

(** The dict filled by the loop over the alphas: one ratio per alpha, each
    the quotient of the counters of its pass. *)
Lemma alpha_loop_Ok self validation alphas alpha_hit table :
  alpha_loop pagerank_scipy self validation alphas alpha_hit = Ok table →
  ∃ ratios,
    Forall2 (λ alpha ratio,
               ∃ hits count,
                 validation_pass pagerank_scipy self alpha validation 0 0
                 = Ok (hits, count)
                 ∧ count ≠ 0%Z
                 ∧ ratio = (inject_Z hits / inject_Z count)%Q)
            alphas ratios
    ∧ table = foldl (λ d kv, dict_set Qeq_bool kv.1 kv.2 d) alpha_hit
                    (zip alphas ratios).
Proof.
  revert alpha_hit. induction alphas as [|alpha alphas IH]; intros alpha_hit; simpl.
  - intros [= <-]. exists []. split; [constructor|done].
  - destruct (validation_pass _ _ _ _ _ _) as [[hits count]|e] eqn:Hpass;
      simpl; [|discriminate].
    destruct (true_div hits count) as [ratio|e] eqn:Hdiv; simpl; [|discriminate].
    apply true_div_Ok in Hdiv as [Hne ->].
    intros (ratios & Hall & ->)%IH.
    exists ((inject_Z hits / inject_Z count)%Q :: ratios). split; [|done].
    constructor; [|done]. by exists hits, count.
Qed.

(** The loop over the alphas raises the [KeyError] of a user without
    recorded ratings, what the engine raised in the pass of one alpha, or
    the [ZeroDivisionError] of [hits / count] after a pass that counted
    nobody. *)
Lemma alpha_loop_error self validation alphas alpha_hit e :
  alpha_loop pagerank_scipy self validation alphas alpha_hit = Err e →
  e = KeyError
  ∨ (∃ alpha, alpha ∈ alphas
              ∧ engine_raises pagerank_scipy self alpha validation e)
  ∨ (e = ZeroDivisionError
     ∧ ∃ alpha hits, alpha ∈ alphas
         ∧ validation_pass pagerank_scipy self alpha validation 0 0
           = Ok (hits, 0%Z)).
Proof.
  revert alpha_hit. induction alphas as [|alpha alphas IH]; intros alpha_hit;
    simpl; [discriminate|].
  destruct (validation_pass _ _ _ _ _ _) as [[hits count]|e'] eqn:Hpass; simpl.
  - destruct (true_div hits count) as [ratio|e'] eqn:Hdiv; simpl.
    + intros [?|[(a & Ha & Hp)|[? (a & h & Ha & Hp)]]]%IH; [by left| |].
      * right; left. exists a. split; [by right|done].
      * right; right. split; [done|]. exists a, h. split; [by right|done].
    + apply true_div_error in Hdiv as [-> ->]. intros [= <-].
      right; right. split; [done|]. exists alpha, hits. split; [by left|done].
  - intros [= <-]. apply validation_pass_error in Hpass as [?|?]; [by left|].
    right; left. exists alpha. split; [by left|done].
Qed.

Lemma alpha_loop_total self validation alphas alpha_hit :
  (∀ g a p, is_Ok (pagerank_scipy g a p)) →
  (∀ entry, entry ∈ validation → is_Ok (get_source_nodes self entry.1)) →
  (∃ entry, entry ∈ validation ∧ eligible self entry = true) →
  is_Ok (alpha_loop pagerank_scipy self validation alphas alpha_hit).
Proof.
  intros Hpr Hknown (entry & Hin & Hel). revert alpha_hit.
  induction alphas as [|alpha alphas IH]; intros alpha_hit; simpl; [by eexists|].
  destruct (validation_pass_total self alpha validation 0 0 Hpr Hknown)
    as [[hits count] Hpass].
  rewrite Hpass. simpl.
  destruct (validation_pass_Ok _ _ _ _ _ _ _ Hpass) as [-> _].
  assert (Hpos : 0 < length (filter (λ entry, eligible self entry) validation)).
  { assert (entry ∈ filter (λ entry, eligible self entry) validation) as H.
    { apply list_elem_of_filter. by rewrite Hel. }
    destruct (filter _ validation); [by apply elem_of_nil in H|simpl; lia]. }
  destruct (true_div _ _) as [ratio|e] eqn:Hdiv; simpl; [apply IH|].
  apply true_div_error in Hdiv as [? _]. lia.
Qed.

End fit_loops.

(** *** [fit] *)

Lemma eligible_filter_pos self (validation : list (pyval * (pyval * list pyval))) :
  (∃ entry, entry ∈ validation ∧ eligible self entry = true) →
  0 < length (filter (λ entry, eligible self entry) validation).
Proof.
  intros (entry & Hin & Hel).
  assert (entry ∈ filter (λ entry, eligible self entry) validation) as H.
  { apply list_elem_of_filter. by rewrite Hel. }
  destruct (filter _ validation); [by apply elem_of_nil in H|simpl; lia].
Qed.

Lemma validation_pass_no_seeds pagerank_scipy self alpha
    (validation : list (pyval * (pyval * list pyval))) hits count :
  (∀ entry, entry ∈ validation → get_source_nodes self entry.1 = Ok []) →
  validation_pass pagerank_scipy self alpha validation hits count
  = Ok (hits, count).
Proof.
  induction validation as [|[user [item negatives]] validation IH];
    intros Hnone; simpl; [done|].
  pose proof (Hnone (user, (item, negatives))) as Huser. simpl in Huser.
  rewrite Huser; [|by left]. simpl.
  apply IH. intros entry ?. apply Hnone. by right.
Qed.

(** C4, as the specification states it, fails: the only validation user has
    no positive rating, hence no seed entity, nobody is eligible, and [fit]
    ends in the [ZeroDivisionError] of [hits / count]. *)
Lemma fit_divides_by_zero :
  filter (λ entry, eligible
            (record_ratings (PageRankRecommender_init true)
                            [(PInt 1, [mkRating 7 0])]) entry)
         [(PInt 1, (PInt 7, [PInt 8]))] = []
  ∧ (fit (λ _ _ _, Ok []) construct_graph_collaborative
         (PageRankRecommender_init true)
         [(PInt 1, [mkRating 7 0])] [(PInt 1, (PInt 7, [PInt 8]))]).2
    = Err ZeroDivisionError.
Proof. split; reflexivity. Qed.

(** C4, amended. The division [hits / count] of [fit] is not guarded. When
    the graph is built and no validation user has a seed entity, the call
    ends in [ZeroDivisionError] at the first alpha, with the ratings and the
    graph recorded and [alpha] as it was. When at least one validation user
    has a seed entity, the division itself never raises: every pass that
    completes has counted somebody. The call can then end in
    [ZeroDivisionError] only when the diffusion engine raised it on a call
    for the seed entities of a validation user, and never does when the
    engine does not raise it. *)
Theorem fit_zero_denominator
    (pagerank_scipy :
       option Graph → option Q → list (pyval * Z) → result (list (pyval * Q)))
    (construct_graph : PageRankRecommender → Training → result Graph)
    (self : PageRankRecommender) (training : Training)
    (validation : list (pyval * ValidationTuple)) (g : Graph) :
  construct_graph (record_ratings self training) training = Ok g →
  ((∀ entry, entry ∈ validation →
      get_source_nodes (record_ratings self training) entry.1 = Ok []) →
   fit pagerank_scipy construct_graph self training validation
   = (set_graph (record_ratings self training) g, Err ZeroDivisionError))
  ∧ ((∃ entry, entry ∈ validation
               ∧ eligible (record_ratings self training) entry = true) →
     (∀ alpha hits count,
        validation_pass pagerank_scipy
          (set_graph (record_ratings self training) g) alpha validation 0 0
        = Ok (hits, count) →
        is_Ok (true_div hits count))
     ∧ ((fit pagerank_scipy construct_graph self training validation).2
        = Err ZeroDivisionError →
        ∃ alpha, alpha ∈ alpha_ranges
                 ∧ engine_raises pagerank_scipy
                     (set_graph (record_ratings self training) g)
                     alpha validation ZeroDivisionError)
     ∧ ((∀ a p, pagerank_scipy (Some g) a p ≠ Err ZeroDivisionError) →
        (fit pagerank_scipy construct_graph self training validation).2
        ≠ Err ZeroDivisionError)).
Proof.
  intros Hg. split.
  - intros Hnone. unfold fit. rewrite Hg. unfold alpha_ranges.
    cbn [alpha_loop].
    rewrite (validation_pass_no_seeds pagerank_scipy _ (1 # 10)); done.
  - intros Hel%(eligible_filter_pos (set_graph (record_ratings self training) g)).
    assert (Horigin :
      (fit pagerank_scipy construct_graph self training validation).2
      = Err ZeroDivisionError →
      ∃ alpha, alpha ∈ alpha_ranges
               ∧ engine_raises pagerank_scipy
                   (set_graph (record_ratings self training) g)
                   alpha validation ZeroDivisionError).
    { unfold fit. rewrite Hg.
      destruct (alpha_loop pagerank_scipy _ validation alpha_ranges [])
        as [table|e] eqn:Hloop; cbn [snd].
      - destruct table as [|kv table]; simpl; intros ?; discriminate.
      - intros [= ->].
        apply alpha_loop_error in Hloop
          as [?|[?|[_ (alpha & hits & _ & Hpass)]]]; [done|done|].
        apply validation_pass_Ok in Hpass as [Hcount _]. lia. }
    split_and!.
    + intros alpha hits count [Hcount _]%validation_pass_Ok.
      destruct (true_div hits count) as [ratio|e] eqn:Hdiv; [by eexists|].
      apply true_div_error in Hdiv as [? _]. lia.
    + exact Horigin.
    + intros Hpr Hfit.
      destruct (Horigin Hfit) as (alpha & _ & entry & src & _ & _ & _ & Hraise).
      by apply (Hpr (Some alpha) _) in Hraise.
Qed.

Lemma fit_zero_denominator_witness :
  fit (λ _ _ _, Ok []) construct_graph_collaborative
      (PageRankRecommender_init true)
      [(PInt 1, [mkRating 7 0])] [(PInt 1, (PInt 7, [PInt 8]))]
  = (set_graph (record_ratings (PageRankRecommender_init true)
                               [(PInt 1, [mkRating 7 0])])
               (construct_collaborative_graph empty_graph
                  [(PInt 1, [mkRating 7 0])] true),
     Err ZeroDivisionError)
  ∧ ∃ alpha,
      alpha ∈ alpha_ranges
      ∧ engine_raises
          (λ g _ personalization,
             if bool_decide
                  (Exists (λ kv, kv.1 ∈ default [] (nodes <$> g))
                          personalization)
             then Ok [] else Err ZeroDivisionError)
          (set_graph (record_ratings (PageRankRecommender_init false)
                                     [(PInt 1, [mkRating 7 1])])
                     empty_graph)
          alpha [(PInt 1, (PInt 8, [PInt 9]))] ZeroDivisionError.
Proof.
  split.
  - apply (fit_zero_denominator (λ _ _ _, Ok []) construct_graph_collaborative
             (PageRankRecommender_init true)
             [(PInt 1, [mkRating 7 0])] [(PInt 1, (PInt 7, [PInt 8]))]
             (construct_collaborative_graph empty_graph
                [(PInt 1, [mkRating 7 0])] true)).
    + reflexivity.
    + intros entry Hin. apply list_elem_of_singleton in Hin. subst entry.
      reflexivity.
  - apply (fit_zero_denominator
             (λ g _ personalization,
                if bool_decide
                     (Exists (λ kv, kv.1 ∈ default [] (nodes <$> g))
                             personalization)
                then Ok [] else Err ZeroDivisionError)
             (λ _ _, Ok empty_graph)
             (PageRankRecommender_init false)
             [(PInt 1, [mkRating 7 1])] [(PInt 1, (PInt 8, [PInt 9]))]
             empty_graph).
    + reflexivity.
    + exists (PInt 1, (PInt 8, [PInt 9])). split; [by left|reflexivity].
    + reflexivity.
Defined.

Lemma Forall2_zip_Forall {A B} (P : A → B → Prop) (l : list A) (k : list B) :
  Forall2 P l k → Forall (λ x, P x.1 x.2) (zip l k).
Proof. induction 1; simpl; by constructor. Qed.

(** The table [fit] builds over its own grid: the alphas of the grid in
    order, each with the ratio of its pass. *)
Lemma alpha_loop_ranges_Ok pagerank_scipy self
    (validation : list (pyval * (pyval * list pyval))) table :
  alpha_loop pagerank_scipy self validation alpha_ranges [] = Ok table →
  table.*1 = alpha_ranges
  ∧ Forall (λ kv, ∃ hits count,
              validation_pass pagerank_scipy self kv.1 validation 0 0
              = Ok (hits, count)
              ∧ count ≠ 0%Z
              ∧ kv.2 = (inject_Z hits / inject_Z count)%Q) table.
Proof.
  intros (ratios & Hall & ->)%alpha_loop_Ok.
  assert (Hzip : foldl (λ d kv, dict_set Qeq_bool kv.1 kv.2 d) []
                   (zip alpha_ranges ratios) = zip alpha_ranges ratios).
  { pose proof (Forall2_length _ _ _ Hall) as Hlen. unfold alpha_ranges in *.
    do 10 (destruct ratios as [|? ratios]; try discriminate Hlen).
    reflexivity. }
  rewrite Hzip. split.
  - apply fst_zip. rewrite <- (Forall2_length _ _ _ Hall). done.
  - by apply Forall2_zip_Forall in Hall.
Qed.

(** C6. A calibration run that returns. Only the validation users with at
    least one seed entity are evaluated: for every alpha of the grid the
    denominator is the number of those users and the numerator the number
    of hits among them. The alpha stored is the first one of the table, in
    grid order, whose hit ratio is greatest, and it is the alpha every later
    [predict] passes to the scorer. The run does return when the graph is
    built, the diffusion engine answers, every validation user has training
    ratings and one of them has a seed entity. On the table
    [{0.1: 0.2, 0.3: 0.9, 0.5: 0.4}] the selection gives [0.3]. *)
Theorem fit_selects_best_alpha
    (pagerank_scipy :
       option Graph → option Q → list (pyval * Z) → result (list (pyval * Q)))
    (construct_graph : PageRankRecommender → Training → result Graph)
    (self : PageRankRecommender) (training : Training)
    (validation : list (pyval * ValidationTuple)) :
  (∀ self' alpha_hit,
     fit pagerank_scipy construct_graph self training validation
     = (self', Ok alpha_hit) →
     ∃ g a,
       construct_graph (record_ratings self training) training = Ok g
       ∧ self' = set_alpha (set_graph (record_ratings self training) g) a
       ∧ alpha_hit.*1 = alpha_ranges
       ∧ (∀ alpha ratio,
            (alpha, ratio) ∈ alpha_hit →
            0 < length (filter (λ entry, eligible self' entry) validation)
            ∧ ratio =
              (inject_Z (Z.of_nat (length
                 (filter (λ entry, is_hit pagerank_scipy
                            (set_graph (record_ratings self training) g)
                            alpha entry)
                    (filter (λ entry, eligible self' entry) validation))))
               / inject_Z (Z.of_nat (length
                   (filter (λ entry, eligible self' entry) validation))))%Q)
       ∧ (∃ i r,
            alpha_hit !! i = Some (a, r)
            ∧ ∀ j a' r', alpha_hit !! j = Some (a', r') →
                (r' <= r)%Q ∧ (j < i → (r' < r)%Q))
       ∧ alpha self' = Some a
       ∧ ∀ user items,
           predict pagerank_scipy self' user items
           = get_source_nodes self' user ≫= λ source_nodes,
             _scores pagerank_scipy self' (Some a) source_nodes items)
  ∧ ((∀ g a p, is_Ok (pagerank_scipy g a p)) →
     is_Ok (construct_graph (record_ratings self training) training) →
     (∀ entry, entry ∈ validation →
        is_Ok (get_source_nodes (record_ratings self training) entry.1)) →
     (∃ entry, entry ∈ validation
               ∧ eligible (record_ratings self training) entry = true) →
     is_Ok (fit pagerank_scipy construct_graph self training validation).2)
  ∧ best_alpha [(0.1, 0.2); (0.3, 0.9); (0.5, 0.4)]%Q = Ok 0.3%Q.
Proof.
  split_and!; [| |reflexivity].
  - intros self' alpha_hit. unfold fit.
    destruct (construct_graph _ training) as [g|e]; [|discriminate].
    destruct (alpha_loop _ _ _ _ _) as [table|e] eqn:Hloop; [|discriminate].
    destruct (best_alpha table) as [a|e] eqn:Hbest; [|discriminate].
    intros [= <- <-]. exists g, a.
    apply alpha_loop_ranges_Ok in Hloop as [Hkeys Hall].
    split_and!; [done..| | |done|done].
    + intros alpha ratio Hin.
      rewrite Forall_forall in Hall.
      destruct (Hall _ Hin) as (hits & count & Hpass & Hne & Hratio).
      simpl in Hpass, Hratio. subst ratio.
      apply validation_pass_Ok in Hpass as [-> ->].
      rewrite !Z.add_0_l in *. split; [|done].
      change (0 < length (filter (λ entry,
                eligible (set_graph (record_ratings self training) g) entry)
                validation)). lia.
    + unfold best_alpha in Hbest.
      destruct (py_max snd table) as [[a' r]|e] eqn:Hmax; [|discriminate].
      injection Hbest as ->.
      apply py_max_spec in Hmax as (i & Hi & Hall'). exists i, r.
      split; [done|]. intros j a' r' Hj. apply (Hall' j (a', r') Hj).
  - intros Hpr [g Hg] Hknown Hel. unfold fit. rewrite Hg.
    destruct (alpha_loop_total pagerank_scipy
                (set_graph (record_ratings self training) g)
                validation alpha_ranges [] Hpr Hknown Hel) as [table Hloop].
    rewrite Hloop.
    apply alpha_loop_ranges_Ok in Hloop as [Hkeys _].
    destruct table as [|kv table]; [discriminate|]. simpl. by eexists.
Qed.

Lemma fit_selects_best_alpha_witness :
  is_Ok (fit (λ g _ _, Ok ((λ n, (n, 1%Q)) <$> default [] (nodes <$> g)))
           construct_graph_collaborative (PageRankRecommender_init true)
           [(PInt 1, [mkRating 7 1; mkRating 8 0])]
           [(PInt 1, (PInt 8, [PInt 9]))]).2.
Proof.
  apply (fit_selects_best_alpha
           (λ g _ _, Ok ((λ n, (n, 1%Q)) <$> default [] (nodes <$> g)))
           construct_graph_collaborative (PageRankRecommender_init true)
           [(PInt 1, [mkRating 7 1; mkRating 8 0])]
           [(PInt 1, (PInt 8, [PInt 9]))]).
  - intros g a p. by eexists.
  - by eexists.
  - intros entry Hin. apply list_elem_of_singleton in Hin. subst entry.
    by eexists.
  - exists (PInt 1, (PInt 8, [PInt 9])). split; [by left|reflexivity].
Defined.

End PageRankProofs.

(** * Further properties of the code *)

Lemma mapM_error {A B} (f : A → result B) (l : list A) (e : exn) :
  mapM f l = Err e → ∃ x, x ∈ l ∧ f x = Err e.
Proof.
  induction l as [|x l IH]; simpl; [discriminate|].
  destruct (f x) as [y|e'] eqn:Hx; simpl.
  - destruct (mapM f l) as [k|e'] eqn:Hl; simpl; [discriminate|].
    intros [= ->]. destruct IH as (x' & Hin & Hx'); [done|].
    exists x'. split; [by right|done].
  - intros [= ->]. exists x. split; [by left|done].
Qed.

Lemma mapM_ext {A B} (f g : A → result B) (l : list A) :
  (∀ x, x ∈ l → f x = g x) → mapM f l = mapM g l.
Proof.
  induction l as [|x l IH]; intros Hext; simpl; [done|].
  rewrite (Hext x); [|by left]. rewrite IH; [done|].
  intros y ?. apply Hext. by right.
Qed.

Lemma mapM_take {A B} (f : A → result B) (l : list A) (k : list B) (n : nat) :
  mapM f l = Ok k → mapM f (take n l) = Ok (take n k).
Proof.
  rewrite !mapM_Ok. apply Forall2_take.
Qed.

(** ** Feature fusion *)

Module Entity2RecExtra.
Import Entity2Rec.

Section fusion.
Context (relatedness_score : string → pyval → pyval → option Q).
Implicit Types (self : Entity2Rec) (user item : pyval).

Lemma score_error prop a b e :
  score relatedness_score prop a b = Err e → e = External "relatedness_score".
Proof. unfold score. destruct (relatedness_score _ _ _); simpl; congruence. Qed.

Lemma collab_similarities_length self user item sims :
  collab_similarities relatedness_score self user item = Ok sims →
  length sims = length (of_typology "collaborative" self).
Proof. apply mapM_Ok_length. Qed.

Lemma content_similarities_length self user item liked sims :
  content_similarities relatedness_score self user item liked = Ok sims →
  length sims = length (of_typology "content" self).
Proof.
  unfold content_similarities. destruct (negb (list_truthy liked)).
  - intros [= <-]. by rewrite length_fmap.
  - apply mapM_Ok_length.
Qed.

Lemma social_similarities_length self user item likers sims :
  social_similarities relatedness_score self user item likers = Ok sims →
  length sims = length (of_typology "social" self).
Proof.
  unfold social_similarities. destruct (negb (list_truthy likers)).
  - intros [= <-]. by rewrite length_fmap.
  - apply mapM_Ok_length.
Qed.

Lemma _compute_scores_Ok self user item liked likers c ct s :
  _compute_scores relatedness_score self user item liked likers
  = Ok (c, ct, s)
  ↔ collab_similarities relatedness_score self user item = Ok c
    ∧ content_similarities relatedness_score self user item liked = Ok ct
    ∧ social_similarities relatedness_score self user item likers = Ok s.
Proof.
  unfold _compute_scores.
  destruct (collab_similarities _ _ _ _) as [c'|e]; simpl;
    [|split; [discriminate|by intros [[=] _]]].
  destruct (content_similarities _ _ _ _ _) as [ct'|e]; simpl;
    [|split; [discriminate|by intros (_ & [=] & _)]].
  destruct (social_similarities _ _ _ _ _) as [s'|e]; simpl;
    [|split; [discriminate|by intros (_ & _ & [=])]].
  split; [by intros [= -> -> ->]|by intros ([= ->] & [= ->] & [= ->])].
Qed.

Lemma _compute_scores_error self user item liked likers e :
  _compute_scores relatedness_score self user item liked likers = Err e →
  e = External "relatedness_score".
Proof.
  assert (Hinner : ∀ (prop : Property) (f : pyval → result Q) l e',
    (∀ x e'', f x = Err e'' → e'' = External "relatedness_score") →
    (mapM f l ≫= λ sims_prop, Ok (np_mean sims_prop)) = Err e' →
    e' = External "relatedness_score").
  { intros _ f l e' Hf. destruct (mapM f l) as [k|e''] eqn:Hl; simpl;
      [discriminate|].
    intros [= <-]. apply mapM_error in Hl as (x & _ & Hx). by eapply Hf. }
  unfold _compute_scores.
  destruct (collab_similarities _ _ _ _) as [c|e'] eqn:Hc; simpl.
  - destruct (content_similarities _ _ _ _ _) as [ct|e'] eqn:Hct; simpl.
    + destruct (social_similarities _ _ _ _ _) as [s|e'] eqn:Hs; simpl;
        [discriminate|].
      intros [= <-]. unfold social_similarities in Hs.
      destruct (negb (list_truthy likers)); [discriminate|].
      apply mapM_error in Hs as (prop & _ & Hs).
      eapply (Hinner prop); [|exact Hs]. intros x e''. apply score_error.
    + intros [= <-]. unfold content_similarities in Hct.
      destruct (negb (list_truthy liked)); [discriminate|].
      apply mapM_error in Hct as (prop & _ & Hct).
      eapply (Hinner prop); [|exact Hct]. intros x e''. apply score_error.
  - intros [= <-]. apply mapM_error in Hc as (prop & _ & Hc).
    by eapply score_error.
Qed.

(** X1. The width of a feature vector. Whenever
    [compute_user_item_features] returns, the vector has one slot per
    property of the active view: the properties of the typology of the
    first override set, or all collaborative, content and social
    properties when none is set. *)
Theorem compute_user_item_features_length self user item liked likers v :
  compute_user_item_features relatedness_score self user item liked likers
  = Ok v →
  length v = length (feature_layout self).
Proof.
  unfold compute_user_item_features, feature_layout.
  destruct (_compute_scores _ _ _ _ _ _) as [[[c ct] s]|e] eqn:Hs; simpl;
    [|discriminate].
  apply _compute_scores_Ok in Hs as (Hc & Hct & Hso).
  apply collab_similarities_length in Hc.
  apply content_similarities_length in Hct.
  apply social_similarities_length in Hso.
  unfold of_typology in *.
  destruct (collab_only self); [intros [= <-]; by rewrite length_fmap|].
  destruct (content_only self); [intros [= <-]; by rewrite length_fmap|].
  destruct (social_only self); [intros [= <-]; by rewrite length_fmap|].
  intros [= <-]. rewrite !length_app, !length_fmap. lia.
Qed.

Lemma of_typology_elem self t prop :
  prop ∈ of_typology t self ↔ prop ∈ properties self ∧ typology prop = t.
Proof.
  unfold of_typology. rewrite list_elem_of_filter. split; by intros [? ?].
Qed.

Lemma collab_similarities_raises self user item :
  raises (collab_similarities relatedness_score self user item)
  ↔ ∃ prop, prop ∈ properties self ∧ typology prop = "collaborative"
            ∧ relatedness_score (name prop) user item = None.
Proof.
  unfold collab_similarities. split.
  - intros [e (prop & [Hin Ht]%of_typology_elem & Hprop)%mapM_error].
    exists prop. split_and!; [done..|].
    unfold score in Hprop. by destruct (relatedness_score _ _ _).
  - intros (prop & Hin & Ht & Hnone). apply mapM_raises with prop.
    + by apply of_typology_elem.
    + unfold score. rewrite Hnone. by eexists.
Qed.

(** The scores of one typology averaged over [past]: the shape shared by
    the content and the social sub-scorer. *)
Lemma averaged_raises (props : list Property) (past : list pyval)
    (target : pyval) :
  raises (mapM (λ prop,
                  sims_prop ← mapM (λ x, score relatedness_score prop x target)
                                   past;
                  Ok (np_mean sims_prop)) props)
  ↔ ∃ prop x, prop ∈ props ∧ x ∈ past
              ∧ relatedness_score (name prop) x target = None.
Proof.
  split.
  - intros [e (prop & Hin & Hprop)%mapM_error].
    destruct (mapM _ past) as [k|e'] eqn:Hpast; simpl in Hprop; [discriminate|].
    apply mapM_error in Hpast as (x & Hx & Hscore).
    exists prop, x. split_and!; [done..|].
    unfold score in Hscore. by destruct (relatedness_score _ _ _).
  - intros (prop & x & Hin & Hx & Hnone). apply mapM_raises with prop; [done|].
    assert (raises (mapM (λ x, score relatedness_score prop x target) past))
      as [e ->]; [|by eexists].
    apply mapM_raises with x; [done|]. unfold score. rewrite Hnone.
    by eexists.
Qed.

Lemma content_similarities_raises self user item liked :
  raises (content_similarities relatedness_score self user item liked)
  ↔ ∃ prop past, prop ∈ properties self ∧ typology prop = "content"
                 ∧ past ∈ liked
                 ∧ relatedness_score (name prop) past item = None.
Proof.
  unfold content_similarities. destruct liked as [|l liked]; simpl.
  - split; [intros [e ?]; discriminate|].
    by intros (_ & past & _ & _ & ?%elem_of_nil & _).
  - rewrite (averaged_raises _ (l :: liked) item). split.
    + intros (prop & x & [? ?]%of_typology_elem & ? & ?). by exists prop, x.
    + intros (prop & x & ? & ? & ? & ?). exists prop, x.
      split_and!; [by apply of_typology_elem|done..].
Qed.

Lemma social_similarities_raises self user item likers :
  raises (social_similarities relatedness_score self user item likers)
  ↔ ∃ prop past, prop ∈ properties self ∧ typology prop = "social"
                 ∧ past ∈ likers
                 ∧ relatedness_score (name prop) past user = None.
Proof.
  unfold social_similarities. destruct likers as [|l likers]; simpl.
  - split; [intros [e ?]; discriminate|].
    by intros (_ & past & _ & _ & ?%elem_of_nil & _).
  - rewrite (averaged_raises _ (l :: likers) user). split.
    + intros (prop & x & [? ?]%of_typology_elem & ? & ?). by exists prop, x.
    + intros (prop & x & ? & ? & ? & ?). exists prop, x.
      split_and!; [by apply of_typology_elem|done..].
Qed.

(** X2. Cold start. With no liked item the content scores, and with no
    liking user the social scores, are one exact zero per property of the
    typology, whatever the similarity provider does, even one that fails on
    every call; a feature vector computed with both lists empty therefore
    fails only if a collaborative score does. *)
Theorem cold_start_scores_are_zero self user item :
  content_similarities relatedness_score self user item []
  = Ok (replicate (length (of_typology "content" self)) 0%Q)
  ∧ social_similarities relatedness_score self user item []
    = Ok (replicate (length (of_typology "social" self)) 0%Q)
  ∧ (raises (compute_user_item_features relatedness_score self user item [] [])
     ↔ raises (collab_similarities relatedness_score self user item)).
Proof.
  assert (Hzero : ∀ props : list Property,
    (λ _ : Property, 0%Q) <$> props = replicate (length props) 0%Q).
  { intros props. by apply const_fmap. }
  split_and!.
  - unfold content_similarities. simpl. by rewrite Hzero.
  - unfold social_similarities. simpl. by rewrite Hzero.
  - unfold compute_user_item_features, _compute_scores.
    destruct (collab_similarities _ _ _ _) as [c|e]; simpl.
    + split; intros [e He]; [|discriminate]. exfalso. revert He.
      by repeat case_match.
    + split; intros _; by eexists.
Qed.

(** X3. A failure of the similarity provider is never masked by the view.
    [compute_user_item_features] raises exactly when the provider fails on
    one of the calls the three sub-scorers make: a collaborative property on
    the pair, a content property on a liked item and the item, or a social
    property on a liking user and the user. The override flags play no part,
    so a failing collaborative score fails a content-only vector too; the
    exception is always the provider's. *)
Theorem provider_failure_fails_every_view self user item liked likers :
  (raises (compute_user_item_features relatedness_score self user item
             liked likers)
   ↔ (∃ prop, prop ∈ properties self ∧ typology prop = "collaborative"
              ∧ relatedness_score (name prop) user item = None)
     ∨ (∃ prop past, prop ∈ properties self ∧ typology prop = "content"
                     ∧ past ∈ liked
                     ∧ relatedness_score (name prop) past item = None)
     ∨ (∃ prop past, prop ∈ properties self ∧ typology prop = "social"
                     ∧ past ∈ likers
                     ∧ relatedness_score (name prop) past user = None))
  ∧ ∀ e, compute_user_item_features relatedness_score self user item
           liked likers = Err e →
         e = External "relatedness_score".
Proof.
  rewrite <- collab_similarities_raises, <- content_similarities_raises,
    <- social_similarities_raises.
  unfold compute_user_item_features.
  destruct (_compute_scores _ _ _ _ _ _) as [[[c ct] s]|e] eqn:Hs; simpl.
  - apply _compute_scores_Ok in Hs as (-> & -> & ->). split.
    + split.
      * intros [e He]. exfalso. revert He. by repeat case_match.
      * intros [[e ?]|[[e ?]|[e ?]]]; discriminate.
    + intros e He. exfalso. revert He. by repeat case_match.
  - split; [|intros e' [= <-]; by eapply _compute_scores_error].
    split; [intros _|intros _; by eexists].
    unfold _compute_scores in Hs.
    destruct (collab_similarities _ _ _ _) as [c|e1]; simpl in Hs;
      [|left; by eexists].
    destruct (content_similarities _ _ _ _ _) as [ct|e2]; simpl in Hs;
      [|right; left; by eexists].
    destruct (social_similarities _ _ _ _ _) as [s|e3]; simpl in Hs;
      [discriminate|right; right; by eexists].
Qed.

Lemma init_social_properties (relations : list string) (a b c : bool) :
  of_typology "social" (Entity2Rec_init relations a b c) = [].
Proof.
  unfold of_typology, Entity2Rec_init. simpl.
  rewrite Entity2RecProofs._set_properties_app. simpl.
  by rewrite filter_app, Entity2RecProofs.filter_content_properties.
Qed.

(** X4. An instance built by [__init__] has no social property: the
    relations are registered as content and [feedback] as collaborative.
    Its social scores are the empty list for every provider and every list
    of liking users, and with [social_only] as the only override every
    feature vector it returns is empty. *)
Theorem init_has_no_social_view (relations : list string)
    (collab content social : bool) user item liked likers :
  of_typology "social" (Entity2Rec_init relations collab content social) = []
  ∧ social_similarities relatedness_score
      (Entity2Rec_init relations collab content social) user item likers
    = Ok []
  ∧ ∀ v, compute_user_item_features relatedness_score
           (Entity2Rec_init relations false false true) user item liked likers
         = Ok v →
         v = [].
Proof.
  pose proof (init_social_properties relations) as Hnone.
  split_and!; [done| |].
  - unfold social_similarities. rewrite Hnone. by destruct likers.
  - intros v Hv. unfold compute_user_item_features in Hv.
    destruct (_compute_scores _ _ _ _ _ _) as [[[c ct] s]|e] eqn:Hs;
      simpl in Hv; [|discriminate].
    injection Hv as <-.
    apply _compute_scores_Ok in Hs as (_ & _ & Hso).
    apply social_similarities_length in Hso. rewrite Hnone in Hso.
    by destruct s.
Qed.

End fusion.

Lemma compute_user_item_features_length_witness :
  length [0.5%Q; np_mean [0.5%Q]]
  = length (feature_layout (Entity2Rec_init ["director"] false false false)).
Proof.
  apply (compute_user_item_features_length (λ _ _ _, Some 0.5%Q)
           (Entity2Rec_init ["director"] false false false)
           (PStr "u") (PStr "i") [PStr "a"] []).
  reflexivity.
Defined.

(** ** Training and persistence *)

Lemma fit_metric_error optimize N e :
  fit_metric optimize N = Err e
  ↔ (optimize ∉ ["NDCG"; "P"; "AP"])
    ∧ e = ValueError "Metric not implemented".
Proof.
  unfold fit_metric. rewrite !elem_of_cons, elem_of_nil.
  destruct (decide (optimize = "NDCG")) as [->|H1].
  { split; [discriminate|]. intros [Hout _]. exfalso. apply Hout. auto. }
  rewrite (bool_decide_eq_false_2 _ H1).
  destruct (decide (optimize = "P")) as [->|H2].
  { split; [discriminate|]. intros [Hout _]. exfalso. apply Hout. auto. }
  rewrite (bool_decide_eq_false_2 _ H2).
  destruct (decide (optimize = "AP")) as [->|H3].
  { split; [discriminate|]. intros [Hout _]. exfalso. apply Hout. auto. }
  rewrite (bool_decide_eq_false_2 _ H3). split.
  - intros [= <-]. split; [|done]. by intros [?|[?|[?|[]]]].
  - by intros [_ ->].
Qed.

(** X5. [fit] with an [optimize] other than [NDCG], [P] and [AP] raises
    [ValueError], for every trainer and every data set, and leaves the
    instance as it was, the model included. With one of the three names the
    metric is accepted: the trainer runs on a new object with the
    hyper-parameters of the call, with a monitor exactly when the three
    validation arrays are given, and [fit] ends as the trainer does, an
    exception being the trainer's own. *)
Theorem fit_rejects_unknown_metric
    (lambdamart_fit :
       LambdaMART → Dataset → option (Dataset * Metric) → FitOutcome)
    (self : Entity2Rec) (train : Dataset)
    (x_val : option (list (list Q))) (y_val : option (list Q))
    (qids_val : option (list pyval)) (optimize : string) (N : option Z)
    (lr : Q) (n_estimators max_depth : Z) (max_features : option Z) :
  (optimize ∉ ["NDCG"; "P"; "AP"] →
   fit lambdamart_fit self train x_val y_val qids_val optimize N lr
       n_estimators max_depth max_features
   = (self, Err (ValueError "Metric not implemented")))
  ∧ (optimize ∈ ["NDCG"; "P"; "AP"] →
     ∃ fm monitor,
       (∃ k, fit_metric optimize k = Ok fm)
       ∧ (monitor = None ↔ x_val = None ∨ y_val = None ∨ qids_val = None)
       ∧ (fit lambdamart_fit self train x_val y_val qids_val optimize N lr
              n_estimators max_depth max_features).2
         = match lambdamart_fit
                   (mkLambdaMART fm n_estimators lr max_depth max_features
                                 None)
                   train monitor with
           | Fitted _ => Ok ()
           | Failed e _ => Err e
           end).
Proof.
  unfold fit. split.
  - intros Hout. destruct (fit_metric optimize _) as [fm|e] eqn:Hm.
    + assert (fit_metric optimize
                match N with
                | Some n => if (n =? 0)%Z then (10 ^ 8)%Z else n
                | None => (10 ^ 8)%Z
                end = Err (ValueError "Metric not implemented")) as Herr
        by by apply fit_metric_error.
      congruence.
    + by apply fit_metric_error in Hm as [_ ->].
  - intros Hin. destruct (fit_metric optimize _) as [fm|e] eqn:Hm;
      [|by apply fit_metric_error in Hm as [Hout _]].
    exists fm,
      (match x_val, y_val, qids_val with
       | Some xv, Some yv, Some qv => Some (xv, yv, qv, fm)
       | _, _, _ => None
       end).
    split_and!; [by eexists| |by destruct (lambdamart_fit _ _ _)].
    destruct x_val, y_val, qids_val; split;
      solve [discriminate | by intros [?|[?|?]] | auto].
Qed.

Lemma fit_rejects_unknown_metric_witness :
  fit (λ _ _ _, Fitted (fmap np_mean))
      (Entity2Rec_init ["director"] false false false)
      ([[0.9; 0.1]%Q], [1%Q], [PStr "u"]) None None None
      "MAP" (Some 5%Z) 0.1%Q 100 5 None
  = (Entity2Rec_init ["director"] false false false,
     Err (ValueError "Metric not implemented")).
Proof.
  apply (fit_rejects_unknown_metric (λ _ _ _, Fitted (fmap np_mean))
           (Entity2Rec_init ["director"] false false false)
           ([[0.9; 0.1]%Q], [1%Q], [PStr "u"]) None None None
           "MAP" (Some 5%Z) 0.1%Q 100 5 None).
  rewrite !elem_of_cons, elem_of_nil. by intros [?|[?|[?|[]]]].
Defined.

(** X6. A training that fails is not undone. When [fit] raises although
    the metric is recognized, the exception is the trainer's, and
    [self.model] holds the object the trainer ran on, with the
    hyper-parameters of the call and the estimators the trainer had built:
    the instance is no longer without a model. [predict] without a routing
    table then calls that object instead of returning the row means, and
    [recommend] with [average=False] scores with it; when the trainer had
    built no estimators, both raise. *)
Theorem fit_failure_keeps_new_model
    (lambdamart_fit :
       LambdaMART → Dataset → option (Dataset * Metric) → FitOutcome)
    (self : Entity2Rec) (train : Dataset)
    (x_val : option (list (list Q))) (y_val : option (list Q))
    (qids_val : option (list pyval)) (optimize : string) (N : option Z)
    (lr : Q) (n_estimators max_depth : Z) (max_features : option Z)
    (e : exn) :
  optimize ∈ ["NDCG"; "P"; "AP"] →
  (fit lambdamart_fit self train x_val y_val qids_val optimize N lr
       n_estimators max_depth max_features).2 = Err e →
  ∃ fm built,
    model (fit lambdamart_fit self train x_val y_val qids_val optimize N
             lr n_estimators max_depth max_features).1
    = Some (mkLambdaMART fm n_estimators lr max_depth max_features built)
    ∧ (∃ monitor,
         lambdamart_fit
           (mkLambdaMART fm n_estimators lr max_depth max_features None)
           train monitor
         = Failed e built)
    ∧ (∀ x_test qids_test,
         routing self = None →
         predict (fit lambdamart_fit self train x_val y_val qids_val optimize
                    N lr n_estimators max_depth max_features).1
                 x_test qids_test
         = Scores <$> LambdaMART_predict
                        (mkLambdaMART fm n_estimators lr max_depth
                                      max_features built) x_test)
    ∧ (∀ features,
         recommend_preds
           (fit lambdamart_fit self train x_val y_val qids_val optimize N lr
              n_estimators max_depth max_features).1 features false
         = LambdaMART_predict
             (mkLambdaMART fm n_estimators lr max_depth max_features built)
             features)
    ∧ (built = None →
       (∀ x_test qids_test,
          routing self = None →
          predict (fit lambdamart_fit self train x_val y_val qids_val optimize
                     N lr n_estimators max_depth max_features).1
                  x_test qids_test
          = Err (External "LambdaMART.predict"))
       ∧ ∀ user qids_test x_test items_test K,
           raises (recommend
                     (fit lambdamart_fit self train x_val y_val qids_val
                        optimize N lr n_estimators max_depth max_features).1
                     user qids_test x_test items_test K false)).
Proof.
  intros Hin. unfold fit.
  destruct (fit_metric optimize _) as [fm|e'] eqn:Hm;
    [|by apply fit_metric_error in Hm as [? _]].
  destruct (lambdamart_fit _ _ _) as [est|e' built] eqn:Hfit;
    [discriminate|].
  intros [= ->]. exists fm, built. cbn [fst].
  assert (Hrouting : ∀ m, routing (set_model self m) = routing self) by done.
  split_and!.
  - done.
  - by eexists.
  - intros x_test qids_test Hr. unfold predict. by rewrite Hrouting, Hr.
  - done.
  - intros ->. split.
    + intros x_test qids_test Hr. unfold predict. by rewrite Hrouting, Hr.
    + intros user qids_test x_test items_test K. unfold recommend.
      destruct (np_take x_test _) as [features|e']; simpl; [|by eexists].
      destruct (np_take items_test _) as [candidates|e']; simpl; [|by eexists].
      by eexists.
Qed.

Lemma fit_failure_keeps_new_model_witness :
  ∃ fm built,
    model (fit (λ _ _ _, Failed (ValueError "Input contains NaN") None)
             (Entity2Rec_init ["director"] false false false)
             ([[0.9; 0.1]%Q], [1%Q], [PStr "u"]) None None None
             "P" (Some 5%Z) 0.1%Q 100 5 None).1
    = Some (mkLambdaMART fm 100 0.1%Q 5 None built).
Proof.
  destruct (fit_failure_keeps_new_model
              (λ _ _ _, Failed (ValueError "Input contains NaN") None)
              (Entity2Rec_init ["director"] false false false)
              ([[0.9; 0.1]%Q], [1%Q], [PStr "u"]) None None None
              "P" (Some 5%Z) 0.1%Q 100 5 None
              (ValueError "Input contains NaN"))
    as (fm & built & Hmodel & _).
  - rewrite !elem_of_cons. auto.
  - reflexivity.
  - by exists fm, built.
Defined.

(** X7. The guard of [save_model] is the reverse of its message. After any
    [fit] whose metric is recognized, whether the trainer succeeded or not,
    [save_model] raises [AttributeError] and writes nothing; it writes only
    for an instance without a model, and what it writes is then [None]. *)
Theorem save_model_refuses_fitted_model
    (lambdamart_fit :
       LambdaMART → Dataset → option (Dataset * Metric) → FitOutcome)
    (self : Entity2Rec) (train : Dataset)
    (x_val : option (list (list Q))) (y_val : option (list Q))
    (qids_val : option (list pyval)) (optimize : string) (N : option Z)
    (lr : Q) (n_estimators max_depth : Z) (max_features : option Z)
    (model_file : string) (files : gmap string (option LambdaMART)) :
  (optimize ∈ ["NDCG"; "P"; "AP"] →
   save_model (fit lambdamart_fit self train x_val y_val qids_val optimize N
                 lr n_estimators max_depth max_features).1 model_file files
   = (files, Err AttributeError))
  ∧ ((save_model self model_file files).2 = Ok () ↔ model self = None)
  ∧ ((save_model self model_file files).2 = Ok () →
     (save_model self model_file files).1 !! model_file = Some None
     ∧ ∀ other, other ≠ model_file →
         (save_model self model_file files).1 !! other = files !! other).
Proof.
  split_and!.
  - intros Hin. unfold fit.
    destruct (fit_metric optimize _) as [fm|e] eqn:Hm;
      [|by apply fit_metric_error in Hm as [? _]].
    by destruct (lambdamart_fit _ _ _).
  - unfold save_model. by destruct (model self).
  - unfold save_model, joblib_dump.
    destruct (model self) eqn:Hmodel; simpl; [discriminate|]. intros _.
    split; [by rewrite lookup_insert_eq|].
    intros other Hne. by rewrite lookup_insert_ne.
Qed.

Lemma save_model_refuses_fitted_model_witness :
  save_model (fit (λ _ _ _, Fitted (fmap np_mean))
                (Entity2Rec_init ["director"] false false false)
                ([[0.9; 0.1]%Q], [1%Q], [PStr "u"]) None None None
                "P" (Some 5%Z) 0.1%Q 100 5 None).1 "model.pkl" ∅
  = (∅, Err AttributeError).
Proof.
  apply (save_model_refuses_fitted_model (λ _ _ _, Fitted (fmap np_mean))
           (Entity2Rec_init ["director"] false false false)
           ([[0.9; 0.1]%Q], [1%Q], [PStr "u"]) None None None
           "P" (Some 5%Z) 0.1%Q 100 5 None "model.pkl" ∅).
  rewrite !elem_of_cons. auto.
Defined.

(** X8. Saving then loading never carries a model. If [save_model] on one
    instance returns, then [load_model] of the same file on any instance
    returns and leaves that instance without a model, even if it had one:
    its [predict] without a routing table then gives the row means. Loading
    a file that was never written raises and leaves the instance as it
    was. *)
Theorem save_then_load_drops_model
    (self other : Entity2Rec) (model_file : string)
    (files : gmap string (option LambdaMART)) :
  ((save_model self model_file files).2 = Ok () →
   load_model other model_file (save_model self model_file files).1
   = (set_model other None, Ok ())
   ∧ ∀ x_test qids_test,
       routing other = None →
       predict (load_model other model_file
                  (save_model self model_file files).1).1 x_test qids_test
       = Ok (Scores (np_mean <$> x_test)))
  ∧ (files !! model_file = None →
     load_model other model_file files
     = (other, Err (External "joblib.load"))).
Proof.
  split.
  - unfold save_model, load_model, joblib_load, joblib_dump.
    destruct (model self); simpl; [discriminate|]. intros _.
    rewrite lookup_insert_eq. simpl. split; [done|].
    intros x_test qids_test Hr. unfold predict. cbn [fst].
    assert (∀ m, routing (set_model other m) = routing other) as -> by done.
    by rewrite Hr.
  - intros Hnone. unfold load_model, joblib_load. by rewrite Hnone.
Qed.

Lemma save_then_load_drops_model_witness :
  load_model
    (set_model (Entity2Rec_init ["director"] false false false)
       (Some (mkLambdaMART (NDCG 5) 100 0.1%Q 5 None (Some (fmap np_mean)))))
    "model.pkl"
    (save_model (Entity2Rec_init ["director"] false false false)
                "model.pkl" ∅).1
  = (set_model
       (set_model (Entity2Rec_init ["director"] false false false)
          (Some (mkLambdaMART (NDCG 5) 100 0.1%Q 5 None
                   (Some (fmap np_mean)))))
       None, Ok ()).
Proof.
  apply (save_then_load_drops_model
           (Entity2Rec_init ["director"] false false false)
           (set_model (Entity2Rec_init ["director"] false false false)
              (Some (mkLambdaMART (NDCG 5) 100 0.1%Q 5 None
                       (Some (fmap np_mean)))))
           "model.pkl" ∅).
  reflexivity.
Defined.

(** ** Recommendation *)

Lemma recommend_Ok_rows (self : Entity2Rec) (user : pyval)
    (qids_test : list pyval) (x_test : list (list Q))
    (items_test : list pyval) (N : Z) (average : bool) recs :
  recommend self user qids_test x_test items_test N average = Ok recs →
  ∀ i row, qids_test !! i = Some user → x_test !! i = Some row →
    ∃ best prop, np_argmax row = Ok best
                 ∧ properties self !! best = Some prop.
Proof.
  unfold recommend.
  destruct (np_take x_test _) as [features|e] eqn:Hf; simpl; [|discriminate].
  destruct (np_take items_test _) as [candidates|e] eqn:Hc; simpl;
    [|discriminate].
  destruct (recommend_preds _ _ _) as [preds|e]; simpl; [|discriminate].
  destruct (mapM (candidate_entry self features) _) as [ci|e] eqn:Hci; simpl;
    [|discriminate].
  intros _ i row Hq Hrow.
  apply np_take_Ok in Hf. apply np_take_Ok in Hc. apply mapM_Ok in Hci.
  apply np_where_eq_elem, list_elem_of_lookup in Hq as [k Hk].
  destruct (Forall2_lookup_l _ _ _ _ _ Hf Hk) as (row' & Hfeat & Hrow').
  destruct (Forall2_lookup_l _ _ _ _ _ Hc Hk) as (c & Hcand & _).
  destruct (Forall2_lookup_l _ _ _ k (k, c) Hci) as (entry & _ & Hentry);
    [by apply enumerate_lookup|].
  apply Entity2RecProofs.candidate_entry_Ok in Hentry
    as (row'' & best & prop & Hfeat' & Hbest & Hprop & _).
  exists best, prop. split; [|done]. congruence.
Qed.

(** X9. The dominant property is computed for every row of the user, not
    only for the rows returned. If a single row of the user has an empty
    feature vector, or its arg-max position is beyond the registered
    properties, [recommend] raises, whatever [N] is (zero included), however
    the row scores and whichever way the rows are scored. *)
Theorem recommend_fails_on_one_unexplained_row
    (self : Entity2Rec) (user : pyval) (qids_test : list pyval)
    (x_test : list (list Q)) (items_test : list pyval) (N : Z)
    (average : bool) (i : nat) (row : list Q) :
  qids_test !! i = Some user → x_test !! i = Some row →
  (row = [] ∨ ∃ best, np_argmax row = Ok best
                      ∧ length (properties self) ≤ best) →
  raises (recommend self user qids_test x_test items_test N average).
Proof.
  intros Hq Hrow Hbad. apply raises_not_Ok. intros [recs Hrecs].
  destruct (recommend_Ok_rows _ _ _ _ _ _ _ _ Hrecs i row Hq Hrow)
    as (best & prop & Hbest & Hprop).
  destruct Hbad as [->|(best' & Hbest' & Hlen)]; [discriminate|].
  assert (best' = best) as -> by congruence.
  apply lookup_lt_Some in Hprop. lia.
Qed.

Lemma recommend_fails_on_one_unexplained_row_witness :
  raises (recommend (Entity2Rec_init ["director"] false false false)
            (PStr "u") [PStr "u"; PStr "u"]
            [[0.9; 0.8]; [0.1; 0.2; 0.3]]%Q [PStr "A"; PStr "B"] 1 true).
Proof.
  apply (recommend_fails_on_one_unexplained_row
           (Entity2Rec_init ["director"] false false false)
           (PStr "u") [PStr "u"; PStr "u"]
           [[0.9; 0.8]; [0.1; 0.2; 0.3]]%Q [PStr "A"; PStr "B"] 1 true
           1 [0.1; 0.2; 0.3]%Q).
  - reflexivity.
  - reflexivity.
  - right. exists 2. split; [reflexivity|simpl; lia].
Defined.

(** X10. [recommend] for a user reads only that user's rows: two calls
    whose feature and item arrays agree on the rows whose query id is the
    user return the same thing, result or exception, whatever the other
    rows hold and however long the arrays are. *)
Theorem recommend_reads_only_the_users_rows
    (self : Entity2Rec) (user : pyval) (qids_test : list pyval)
    (x_test x_test' : list (list Q)) (items_test items_test' : list pyval)
    (N : Z) (average : bool) :
  (∀ i, qids_test !! i = Some user →
        x_test !! i = x_test' !! i ∧ items_test !! i = items_test' !! i) →
  recommend self user qids_test x_test items_test N average
  = recommend self user qids_test x_test' items_test' N average.
Proof.
  intros Hsame. unfold recommend.
  assert (np_take x_test (np_where_eq qids_test user)
          = np_take x_test' (np_where_eq qids_test user)) as ->.
  { apply mapM_ext. intros i Hi%np_where_eq_elem.
    by destruct (Hsame i Hi) as [-> _]. }
  assert (np_take items_test (np_where_eq qids_test user)
          = np_take items_test' (np_where_eq qids_test user)) as ->.
  { apply mapM_ext. intros i Hi%np_where_eq_elem.
    by destruct (Hsame i Hi) as [_ ->]. }
  done.
Qed.

Lemma recommend_reads_only_the_users_rows_witness :
  recommend (Entity2Rec_init ["director"] false false false) (PStr "u")
    [PStr "u"; PStr "v"] [[0.9; 0.8]; [0.1; 0.2]]%Q [PStr "A"; PStr "B"]
    1 true
  = recommend (Entity2Rec_init ["director"] false false false) (PStr "u")
      [PStr "u"; PStr "v"] [[0.9; 0.8]; []]%Q [PStr "A"] 1 true.
Proof.
  apply (recommend_reads_only_the_users_rows
           (Entity2Rec_init ["director"] false false false) (PStr "u")
           [PStr "u"; PStr "v"] [[0.9; 0.8]; [0.1; 0.2]]%Q [[0.9; 0.8]; []]%Q
           [PStr "A"; PStr "B"] [PStr "A"] 1 true).
  intros i Hi. destruct i as [|[|i]]; simpl in Hi; [done|discriminate..].
Defined.

(** X11. The lists for different [N] are nested. If [recommend] returns
    [recs'] for [N'], then for every smaller [N] on the same arguments it
    returns the first [N] entries of [recs'] (none for [N <= 0]). *)
Theorem recommend_smaller_N_is_prefix
    (self : Entity2Rec) (user : pyval) (qids_test : list pyval)
    (x_test : list (list Q)) (items_test : list pyval) (N N' : Z)
    (average : bool) (recs' : list (pyval * string)) :
  recommend self user qids_test x_test items_test N' average = Ok recs' →
  (N ≤ N')%Z →
  recommend self user qids_test x_test items_test N average
  = Ok (take (Z.to_nat N) recs').
Proof.
  unfold recommend.
  destruct (np_take x_test _) as [features|e]; simpl; [|discriminate].
  destruct (np_take items_test _) as [candidates|e]; simpl; [|discriminate].
  destruct (recommend_preds _ _ _) as [preds|e]; simpl; [|discriminate].
  destruct (mapM (candidate_entry self features) _) as [ci|e]; simpl;
    [|discriminate].
  unfold nlargest. intros Hrecs HN.
  destruct (Z.leb_spec N 0) as [Hle|Hlt]; simpl.
  { by replace (Z.to_nat N) with 0 by lia. }
  destruct (Z.leb_spec N' 0) as [Hle'|Hlt']; [lia|].
  destruct (mapM _ ci.*1) as [keys|e]; simpl in *; [|discriminate].
  replace (take (Z.to_nat N) (sorted_reverse (zip keys ci.*1))).*2
    with (take (Z.to_nat N)
            (take (Z.to_nat N') (sorted_reverse (zip keys ci.*1))).*2).
  - by apply mapM_take.
  - rewrite <- !fmap_take, take_take. f_equal. f_equal. lia.
Qed.

Lemma recommend_smaller_N_is_prefix_witness :
  recommend (Entity2Rec_init ["director"] false false false) (PStr "u")
    [PStr "u"; PStr "u"; PStr "u"] [[0.9]; [0.5]; [0.9]]%Q
    [PStr "A"; PStr "B"; PStr "C"] 1 true
  = Ok (take (Z.to_nat 1)
          [(PStr "A", "director"); (PStr "C", "director");
           (PStr "B", "director")]).
Proof.
  apply (recommend_smaller_N_is_prefix
           (Entity2Rec_init ["director"] false false false) (PStr "u")
           [PStr "u"; PStr "u"; PStr "u"] [[0.9]; [0.5]; [0.9]]%Q
           [PStr "A"; PStr "B"; PStr "C"] 1 3 true).
  - reflexivity.
  - lia.
Defined.

(** ** Embedding files *)

Lemma string_app_inj_r (a b r : string) : a +:+ r = b +:+ r → a = b.
Proof.
  assert (Hlen : ∀ a r, String.length (a +:+ r)
                        = String.length a + String.length r).
  { intros a' r'. induction a' as [|c a' IH]; simpl; [done|]. by rewrite IH. }
  revert b. induction a as [|c a IH]; intros [|d b] Heq.
  - done.
  - apply (f_equal String.length) in Heq.
    rewrite (Hlen "" r), (Hlen (String d b) r) in Heq. simpl in Heq. lia.
  - apply (f_equal String.length) in Heq.
    rewrite (Hlen "" r), (Hlen (String c a) r) in Heq. simpl in Heq. lia.
  - simpl in Heq. injection Heq as -> Heq. f_equal. by apply IH.
Qed.

Lemma split_last_no_sep (c : Ascii.ascii) (s : string) :
  contains c (split_last c s) = false.
Proof.
  induction s as [|a s IH]; simpl; [done|].
  destruct (contains c s) eqn:Hs; [done|].
  case_bool_decide as Ha; [done|]. simpl.
  by rewrite Hs, bool_decide_eq_false_2.
Qed.

Lemma split_last_id (c : Ascii.ascii) (s : string) :
  contains c s = false → split_last c s = s.
Proof.
  destruct s as [|a s]; simpl; [done|].
  intros [Ha Hs]%orb_false_iff. by rewrite Hs, Ha.
Qed.

Lemma split_last_suffix (c : Ascii.ascii) (s : string) :
  contains c s = true →
  ∃ pre, s = pre +:+ String c (split_last c s).
Proof.
  induction s as [|a s IH]; simpl; [discriminate|].
  destruct (contains c s) eqn:Hs.
  - intros _. destruct IH as [pre Hpre]; [done|].
    exists (String a pre).
    change (String a s = String a (pre +:+ String c (split_last c s))).
    by f_equal.
  - rewrite orb_false_r. intros ->%bool_decide_eq_true.
    exists EmptyString. simpl. by rewrite bool_decide_eq_true_2.
Qed.

(** X12. The directory of an embedding file. For every property name,
    [prop_short] is what follows the last ['/'] of the name, so it contains
    no ['/'] and the name ends with it; a name without ['/'] is its own
    short name (the test ['/' in prop_name] changes nothing), and a name that
    ends in ['/'] has the empty short name. *)
Theorem prop_short_is_last_segment (prop_name : string) :
  prop_short prop_name = split_last "/"%char prop_name
  ∧ contains "/"%char (prop_short prop_name) = false
  ∧ (contains "/"%char prop_name = false → prop_short prop_name = prop_name)
  ∧ (contains "/"%char prop_name = true →
     ∃ pre, prop_name = pre +:+ "/" +:+ prop_short prop_name)
  ∧ prop_short (prop_name +:+ "/") = ""
  ∧ prop_short (prop_short prop_name) = prop_short prop_name.
Proof.
  assert (Hshort : ∀ s, prop_short s = split_last "/"%char s).
  { intros s. unfold prop_short.
    destruct (contains "/"%char s) eqn:Hs; [done|]. by rewrite split_last_id. }
  split_and!.
  - done.
  - rewrite Hshort. apply split_last_no_sep.
  - intros Hs. rewrite Hshort. by apply split_last_id.
  - intros Hs. rewrite Hshort. by apply split_last_suffix.
  - rewrite Hshort. induction prop_name as [|a s IH]; simpl; [done|].
    rewrite IH.
    assert (contains "/"%char (s +:+ "/") = true) as ->; [|done].
    clear IH. induction s as [|b s IH]; simpl; [done|].
    by rewrite IH, orb_true_r.
  - rewrite !Hshort. apply split_last_id, split_last_no_sep.
Qed.

(** X13. Which relations share an embedding file. [_set_embedding_files]
    registers one file per property, in registry order, under the property's
    full name; for two names other than [feedback] the files are the same
    exactly when the names have the same part after their last ['/'], so two
    relations from different namespaces with the same local name are given
    the same file. *)
Theorem emb_file_collides_on_short_name
    (cfg : WalkConfig) (self : Entity2Rec) (a b : string) :
  (_set_embedding_files cfg self).*1 = name <$> properties self
  ∧ (a ≠ "feedback" → b ≠ "feedback" →
     (emb_file cfg a = emb_file cfg b ↔ prop_short a = prop_short b)).
Proof.
  split.
  - unfold _set_embedding_files. rewrite <- list_fmap_compose.
    by apply list_fmap_ext.
  - intros Ha Hb. unfold emb_file.
    rewrite !bool_decide_eq_false_2 by done. split; [|by intros ->].
    intros Heq. do 3 apply (inj (String.app _)) in Heq.
    by apply string_app_inj_r in Heq.
Qed.

Lemma emb_file_collides_on_short_name_witness :
  emb_file (mkWalkConfig "movielens" 50 1 1 100 200 5 30 "warm" "0.dat")
           "http://dbpedia.org/ontology/director"
  = emb_file (mkWalkConfig "movielens" 50 1 1 100 200 5 30 "warm" "0.dat")
             "http://schema.org/director".
Proof.
  destruct (emb_file_collides_on_short_name
              (mkWalkConfig "movielens" 50 1 1 100 200 5 30 "warm" "0.dat")
              (Entity2Rec_init [] false false false)
              "http://dbpedia.org/ontology/director"
              "http://schema.org/director") as [_ Hiff].
  apply Hiff; [done|done|reflexivity].
Defined.

(** ** The instance [__init__] builds *)

Lemma init_collaborative_properties (relations : list string)
    (collab content social : bool) :
  of_typology "collaborative"
    (Entity2Rec_init relations collab content social)
  = [Property_init "feedback" "collaborative"].
Proof.
  unfold of_typology, Entity2Rec_init. simpl.
  rewrite Entity2RecProofs._set_properties_app. simpl.
  by rewrite filter_app, Entity2RecProofs.filter_content_properties.
Qed.

Lemma init_content_properties (relations : list string)
    (collab content social : bool) :
  of_typology "content" (Entity2Rec_init relations collab content social)
  = (λ r, Property_init r "content") <$> relations.
Proof.
  unfold of_typology, Entity2Rec_init. simpl.
  rewrite Entity2RecProofs._set_properties_app. simpl.
  rewrite filter_app, Entity2RecProofs.filter_content_properties. simpl.
  by rewrite app_nil_r.
Qed.

(** X24. The feature vector of an instance built by [__init__] with no
    override. The only collaborative property is [feedback], whatever the
    relations are, so the vector has one slot more than there are relations
    and its first slot is the provider's [feedback] relatedness of the user
    and the item. *)
Theorem init_feature_vector_shape
    (relatedness_score : string → pyval → pyval → option Q)
    (relations : list string) (user item : pyval)
    (liked likers : list pyval) (v : list Q) :
  compute_user_item_features relatedness_score
    (Entity2Rec_init relations false false false) user item liked likers
  = Ok v →
  length v = S (length relations)
  ∧ v !! 0 = relatedness_score "feedback" user item.
Proof.
  intros Hv. unfold compute_user_item_features in Hv.
  destruct (_compute_scores _ _ _ _ _ _) as [[[c ct] s]|e] eqn:Hs; simpl in Hv;
    [|discriminate].
  injection Hv as <-.
  apply _compute_scores_Ok in Hs as (Hc & Hct & Hso).
  apply content_similarities_length in Hct.
  apply social_similarities_length in Hso.
  rewrite init_content_properties, length_fmap in Hct.
  rewrite init_social_properties in Hso.
  unfold collab_similarities in Hc.
  rewrite init_collaborative_properties in Hc. simpl in Hc.
  unfold score in Hc. simpl in Hc.
  destruct (relatedness_score "feedback" user item) as [fb|]; simpl in Hc;
    [|discriminate].
  injection Hc as <-. split.
  - rewrite !length_app. simpl in *. lia.
  - done.
Qed.

Lemma init_feature_vector_shape_witness :
  length [0.5%Q; np_mean [0.5%Q]] = S (length ["director"])
  ∧ [0.5%Q; np_mean [0.5%Q]] !! 0 = Some 0.5%Q.
Proof.
  apply (init_feature_vector_shape (λ _ _ _, Some 0.5%Q) ["director"]
           (PStr "u") (PStr "i") [PStr "a"] []).
  reflexivity.
Defined.

End Entity2RecExtra.

(** ** The collaborative graph *)

Module PageRankExtra.
Import PageRank.

Lemma add_node_present (g : Graph) (x : pyval) :
  x ∈ nodes g → add_node g x = g.
Proof. intros Hx. unfold add_node. by rewrite decide_True. Qed.

Lemma add_edge_present (g : Graph) (u v : pyval) :
  u ∈ nodes g → v ∈ nodes g → has_edge g u v → add_edge g u v = g.
Proof.
  intros Hu Hv He. unfold add_edge.
  rewrite (add_node_present g u Hu), (add_node_present g v Hv).
  by rewrite decide_True.
Qed.

Lemma add_node_simple (g : Graph) (x : pyval) :
  simple_graph g → simple_graph (add_node g x).
Proof.
  intros (Hn & He & Hends & Hdir). unfold add_node.
  destruct (decide (x ∈ nodes g)) as [Hx|Hx]; [done|].
  split_and!; simpl; [|done| |done].
  - apply NoDup_app. split_and!; [done| |apply NoDup_singleton].
    intros y Hy ->%list_elem_of_singleton. done.
  - intros u v [Hu Hv]%Hends. rewrite !elem_of_app. auto.
Qed.

Lemma add_edge_simple (g : Graph) (u v : pyval) :
  simple_graph g → simple_graph (add_edge g u v).
Proof.
  intros Hg. unfold add_edge.
  assert (simple_graph (add_node (add_node g u) v)) as (Hn & He & Hends & Hdir)
    by by do 2 apply add_node_simple.
  assert (u ∈ nodes (add_node (add_node g u) v)
          ∧ v ∈ nodes (add_node (add_node g u) v)) as [Hu Hv].
  { rewrite !PageRankProofs.add_node_nodes. auto. }
  set (g' := add_node (add_node g u) v) in *.
  destruct (decide (has_edge g' u v)) as [Huv|Huv]; [done|].
  unfold has_edge in Huv.
  split_and!; simpl.
  - done.
  - apply NoDup_app. split_and!; [done| |apply NoDup_singleton].
    intros e Hin ->%list_elem_of_singleton. tauto.
  - intros a b [Hab|[= -> ->]%list_elem_of_singleton]%elem_of_app;
      [by apply Hends|done].
  - intros a b [Hab|[= -> ->]%list_elem_of_singleton]%elem_of_app
               [Hba|[= Ha Hb]%list_elem_of_singleton]%elem_of_app.
    + by apply Hdir.
    + subst. tauto.
    + tauto.
    + done.
Qed.

Lemma ratings_loop_simple (only_positive : bool) (user_id : pyval)
    (ratings : list Rating) (g : Graph) :
  simple_graph g →
  simple_graph (foldl (λ graph r,
                         if skipped only_positive r then graph
                         else add_edge (add_node graph (PInt (e_idx r)))
                                       user_id (PInt (e_idx r)))
                      g ratings).
Proof.
  revert g. induction ratings as [|r ratings IH]; intros g Hg; simpl; [done|].
  apply IH. destruct (skipped only_positive r); [done|].
  by apply add_edge_simple, add_node_simple.
Qed.

Lemma construct_collaborative_graph_simple (graph : Graph)
    (training : Training) (only_positive : bool) :
  simple_graph graph →
  simple_graph (construct_collaborative_graph graph training only_positive).
Proof.
  unfold construct_collaborative_graph. revert graph.
  induction training as [|[user ratings] training IH]; intros graph Hg; simpl;
    [done|].
  apply IH. by apply ratings_loop_simple, add_node_simple.
Qed.

Lemma ratings_loop_present (only_positive : bool) (user_id : pyval)
    (ratings : list Rating) (g : Graph) :
  user_id ∈ nodes g →
  (∀ r, r ∈ ratings → skipped only_positive r = false →
        PInt (e_idx r) ∈ nodes g ∧ has_edge g user_id (PInt (e_idx r))) →
  foldl (λ graph r,
           if skipped only_positive r then graph
           else add_edge (add_node graph (PInt (e_idx r)))
                         user_id (PInt (e_idx r)))
        g ratings = g.
Proof.
  intros Hu. induction ratings as [|r ratings IH]; intros Hall; simpl; [done|].
  destruct (skipped only_positive r) eqn:Hs.
  - apply IH. intros r' ?. apply Hall. by right.
  - destruct (Hall r) as [Hn He]; [by left|done|].
    rewrite (add_node_present g _ Hn), (add_edge_present g _ _ Hu Hn He).
    apply IH. intros r' ?. apply Hall. by right.
Qed.

Lemma construct_collaborative_graph_present (graph : Graph)
    (training : Training) (only_positive : bool) :
  (∀ user ratings, (user, ratings) ∈ training →
     user_node user ∈ nodes graph
     ∧ ∀ r, r ∈ ratings → skipped only_positive r = false →
         PInt (e_idx r) ∈ nodes graph
         ∧ has_edge graph (user_node user) (PInt (e_idx r))) →
  construct_collaborative_graph graph training only_positive = graph.
Proof.
  unfold construct_collaborative_graph.
  induction training as [|[user ratings] training IH]; intros Hall; simpl;
    [done|].
  destruct (Hall user ratings) as [Hu Hr]; [by left|].
  rewrite (add_node_present graph _ Hu), ratings_loop_present by done.
  apply IH. intros user' ratings' ?. apply Hall. by right.
Qed.

(** X14. Building is idempotent on the graph object. A second call of
    [construct_collaborative_graph] with the same training set and flag on
    the graph returned by the first adds nothing: the graph is the same,
    node for node and edge for edge, whatever graph the first call started
    from. *)
Theorem construct_collaborative_graph_idempotent (graph : Graph)
    (training : Training) (only_positive : bool) :
  construct_collaborative_graph
    (construct_collaborative_graph graph training only_positive)
    training only_positive
  = construct_collaborative_graph graph training only_positive.
Proof.
  apply construct_collaborative_graph_present. intros user ratings Hin. split.
  - apply PageRankProofs.construct_collaborative_graph_nodes. right; left.
    by exists user, ratings.
  - intros r Hr Hs. split.
    + apply PageRankProofs.construct_collaborative_graph_nodes. right; right.
      by exists user, ratings, r.
    + apply PageRankProofs.construct_collaborative_graph_has_edge. right.
      exists user, ratings, r. split_and!; [done..|by left].
Qed.

(** X15. The graph built from a new [Graph()] is simple and bipartite: no
    node and no edge is stored twice, every endpoint of an edge is a node,
    and every edge joins a user node [user_<id>] with an entity index, so
    there is no loop and no edge between two users or two entities. The
    builder keeps any graph it is given simple. *)
Theorem construct_collaborative_graph_bipartite
    (training : Training) (only_positive : bool) :
  simple_graph (construct_collaborative_graph empty_graph training only_positive)
  ∧ (∀ graph, simple_graph graph →
       simple_graph (construct_collaborative_graph graph training only_positive))
  ∧ (∀ a b,
       has_edge (construct_collaborative_graph empty_graph training only_positive)
                a b →
       a ≠ b
       ∧ ((∃ user e, a = user_node user ∧ b = PInt e)
          ∨ (∃ user e, a = PInt e ∧ b = user_node user))).
Proof.
  split_and!.
  - apply construct_collaborative_graph_simple.
    split_and!; simpl; [constructor|constructor| |];
      by intros u v ?%elem_of_nil.
  - intros graph. apply construct_collaborative_graph_simple.
  - intros a b [H|(user & ratings & r & _ & _ & _ & H)]
      %PageRankProofs.construct_collaborative_graph_has_edge.
    + destruct H as [H|H]; by apply elem_of_nil in H.
    + destruct H as [[-> ->]|[-> ->]]; (split; [done|]).
      * left. by exists user, (e_idx r).
      * right. by exists user, (e_idx r).
Qed.

(** X16. Restricting to positive ratings only removes: every node and
    every edge of the graph built with [only_positive] is a node and an edge
    of the graph built without it from the same graph and training set, and
    without the flag every rated entity is a node linked to its user. *)
Theorem construct_collaborative_graph_positive_subgraph (graph : Graph)
    (training : Training) (only_positive : bool) :
  (∀ n, has_node (construct_collaborative_graph graph training only_positive) n →
        has_node (construct_collaborative_graph graph training false) n)
  ∧ (∀ a b,
       has_edge (construct_collaborative_graph graph training only_positive) a b →
       has_edge (construct_collaborative_graph graph training false) a b)
  ∧ (∀ user ratings r, (user, ratings) ∈ training → r ∈ ratings →
       has_edge (construct_collaborative_graph graph training false)
                (user_node user) (PInt (e_idx r))).
Proof.
  split_and!.
  - intros n. unfold has_node.
    rewrite !PageRankProofs.construct_collaborative_graph_nodes.
    intros [?|[?|(user & ratings & r & ? & ? & _ & ?)]]; [tauto..|].
    right; right. by exists user, ratings, r.
  - intros a b. rewrite !PageRankProofs.construct_collaborative_graph_has_edge.
    intros [?|(user & ratings & r & ? & ? & _ & ?)]; [tauto|].
    right. by exists user, ratings, r.
  - intros user ratings r Hin Hr.
    apply PageRankProofs.construct_collaborative_graph_has_edge. right.
    exists user, ratings, r. split_and!; [done..|by left].
Qed.

(** ** Seeds *)

Lemma record_ratings_lookup (self : PageRankRecommender) (training : Training)
    (user : pyval) (ratings : list Rating) :
  user_ratings (record_ratings self training) !! user = Some ratings →
  (user, ratings) ∈ training ∨ user_ratings self !! user = Some ratings.
Proof.
  unfold record_ratings. simpl. generalize (user_ratings self) as d.
  induction training as [|[u rs] training IH]; intros d; simpl; [by right|].
  intros [Hin|Hd]%IH; [left; by right|].
  apply lookup_insert_Some in Hd as [[-> ->]|[_ Hd]]; [left; by left|by right].
Qed.

Lemma record_ratings_fresh (self : PageRankRecommender) (training : Training)
    (user : pyval) :
  user ∉ training.*1 →
  user_ratings (record_ratings self training) !! user
  = user_ratings self !! user.
Proof.
  unfold record_ratings. simpl. generalize (user_ratings self) as d.
  induction training as [|[u rs] training IH]; intros d Hout; simpl; [done|].
  rewrite fmap_cons, not_elem_of_cons in Hout. destruct Hout as [Hne Hout].
  rewrite IH by done. by rewrite lookup_insert_ne.
Qed.

Lemma record_ratings_last (self : PageRankRecommender)
    (before after : Training) (user : pyval) (ratings : list Rating) :
  user ∉ after.*1 →
  user_ratings (record_ratings self (before ++ (user, ratings) :: after))
    !! user = Some ratings.
Proof.
  intros Hout. unfold record_ratings. simpl. rewrite foldl_app. simpl.
  pose proof (record_ratings_fresh
    {| graph := None; alpha := None; only_positive := false;
       user_ratings := <[user:=ratings]>
         (foldl (λ d '(user, ratings), <[user:=ratings]> d)
                (user_ratings self) before) |} after user Hout) as Hfresh.
  unfold record_ratings in Hfresh. simpl in Hfresh. rewrite Hfresh.
  by rewrite lookup_insert_eq.
Qed.

Lemma get_source_nodes_Ok (self : PageRankRecommender) (user : pyval)
    (source_nodes : list Z) :
  get_source_nodes self user = Ok source_nodes
  ↔ ∃ ratings,
      user_ratings self !! user = Some ratings
      ∧ source_nodes
        = e_idx <$> filter (λ r, negb (skipped (only_positive self) r)) ratings.
Proof.
  unfold get_source_nodes.
  destruct (user_ratings self !! user) as [ratings|]; simpl.
  - split; [intros [= <-]; by exists ratings|by intros (? & [= <-] & ->)].
  - split; [discriminate|by intros (? & [=] & _)].
Qed.

(** X17. The ratings [fit] records and the seeds it reads back. After the
    first loop of [fit], a user of the training set has the ratings of its
    last entry, and [get_source_nodes] returns the entity indexes of those
    ratings in order, all of them, or with [only_positive] those rated [1];
    a user outside the training set has what an earlier [fit] recorded, and
    [get_source_nodes] raises [KeyError] exactly for a user never
    recorded. *)
Theorem get_source_nodes_after_record_ratings
    (self : PageRankRecommender) (before after : Training) (user : pyval)
    (ratings : list Rating) :
  (user ∉ after.*1 →
   get_source_nodes
     (record_ratings self (before ++ (user, ratings) :: after)) user
   = Ok (e_idx <$> filter (λ r, negb (skipped (only_positive self) r)) ratings))
  ∧ (∀ training other, other ∉ training.*1 →
       get_source_nodes (record_ratings self training) other
       = get_source_nodes self other)
  ∧ (∀ other, raises (get_source_nodes self other)
              ↔ user_ratings self !! other = None)
  ∧ (∀ other e, get_source_nodes self other = Err e → e = KeyError).
Proof.
  split_and!.
  - intros Hout. apply get_source_nodes_Ok. exists ratings.
    split; [by apply record_ratings_last|done].
  - intros training other Hout. unfold get_source_nodes.
    by rewrite record_ratings_fresh.
  - intros other. unfold get_source_nodes.
    destruct (user_ratings self !! other); simpl.
    + split; [intros [e ?]; discriminate|discriminate].
    + split; [done|]. intros _. by eexists.
  - intros other e. apply PageRankProofs.get_source_nodes_error.
Qed.

Lemma get_source_nodes_after_record_ratings_witness :
  get_source_nodes
    (record_ratings (PageRankRecommender_init true)
       ([(PInt 1, [mkRating 5 1])]
        ++ (PInt 1, [mkRating 7 1; mkRating 8 0; mkRating 9 1]) :: []))
    (PInt 1)
  = Ok [7%Z; 9%Z].
Proof.
  apply (get_source_nodes_after_record_ratings (PageRankRecommender_init true)
           [(PInt 1, [mkRating 5 1])] [] (PInt 1)
           [mkRating 7 1; mkRating 8 0; mkRating 9 1]).
  by intros ?%elem_of_nil.
Defined.

(** X18. Seeds are nodes of the graph. On a new recommender, every seed
    entity that [get_source_nodes] returns for a user after the ratings of a
    training set are recorded is a node of the collaborative graph built
    from the same training set and flag, and is linked to that user's
    node. *)
Theorem seeds_are_neighbours_of_the_user
    (only_positive : bool) (training : Training) (user : pyval)
    (source_nodes : list Z) (e : Z) :
  get_source_nodes
    (record_ratings (PageRankRecommender_init only_positive) training) user
  = Ok source_nodes →
  e ∈ source_nodes →
  has_node (construct_collaborative_graph empty_graph training only_positive)
           (PInt e)
  ∧ has_edge (construct_collaborative_graph empty_graph training only_positive)
             (user_node user) (PInt e).
Proof.
  intros (ratings & Hlookup & ->)%get_source_nodes_Ok
         (r & -> & [Hkeep Hr]%list_elem_of_filter)%list_elem_of_fmap.
  apply record_ratings_lookup in Hlookup as [Hin|Hinit].
  2: { cbn [PageRankRecommender_init user_ratings] in Hinit.
       by rewrite lookup_empty in Hinit. }
  assert (skipped only_positive r = false) as Hs.
  { simpl in Hkeep. by destruct (skipped only_positive r). }
  split.
  - apply PageRankProofs.construct_collaborative_graph_nodes. right; right.
    by exists user, ratings, r.
  - apply PageRankProofs.construct_collaborative_graph_has_edge. right.
    exists user, ratings, r. split_and!; [done..|by left].
Qed.

Lemma seeds_are_neighbours_of_the_user_witness :
  has_node (construct_collaborative_graph empty_graph
              [(PInt 1, [mkRating 7 1; mkRating 8 0])] true) (PInt 7)
  ∧ has_edge (construct_collaborative_graph empty_graph
                [(PInt 1, [mkRating 7 1; mkRating 8 0])] true)
             (user_node (PInt 1)) (PInt 7).
Proof.
  apply (seeds_are_neighbours_of_the_user true
           [(PInt 1, [mkRating 7 1; mkRating 8 0])] (PInt 1) [7%Z] 7%Z).
  - reflexivity.
  - by left.
Defined.

(** ** Dicts keyed by nodes *)

Lemma dict_set_elem {V} (k k' : pyval) (v v' : V) (d : list (pyval * V)) :
  (k', v') ∈ dict_set pyval_eqb k v d → (k', v') ∈ d ∨ (k', v') = (k, v).
Proof.
  induction d as [|[k0 v0] d IH]; simpl.
  - intros ->%list_elem_of_singleton. by right.
  - unfold pyval_eqb at 1. case_bool_decide as Hk.
    + subst k0. intros [->|Hin]%elem_of_cons; [by right|]. left. by right.
    + intros [->|Hin]%elem_of_cons; [left; by left|].
      destruct (IH Hin) as [?|?]; [left; by right|by right].
Qed.

Lemma dict_set_fresh {V} (k : pyval) (v : V) (d : list (pyval * V)) :
  k ∉ d.*1 → dict_set pyval_eqb k v d = d ++ [(k, v)].
Proof.
  induction d as [|[k0 v0] d IH]; simpl; [done|].
  rewrite not_elem_of_cons. intros [Hne Hout].
  unfold pyval_eqb at 1. rewrite bool_decide_eq_false_2 by done.
  by rewrite IH.
Qed.

Lemma dict_set_keys {V} (k : pyval) (v : V) (d : list (pyval * V)) :
  NoDup d.*1 → NoDup (dict_set pyval_eqb k v d).*1.
Proof.
  induction d as [|[k0 v0] d IH]; simpl.
  - intros _. apply NoDup_singleton.
  - intros [Hk0 Hd]%NoDup_cons. unfold pyval_eqb at 1.
    case_bool_decide as Hk; simpl; [by apply NoDup_cons|].
    apply NoDup_cons. split; [|by apply IH].
    intros ([k1 v1] & -> & [Hin|[= -> ->]]%dict_set_elem)%list_elem_of_fmap.
    + apply Hk0. apply list_elem_of_fmap. by exists (k1, v1).
    + done.
Qed.

Lemma dict_of_spec {V} (kvs : list (pyval * V)) :
  NoDup (dict_of pyval_eqb kvs).*1
  ∧ (∀ kv, kv ∈ dict_of pyval_eqb kvs → kv ∈ kvs)
  ∧ (NoDup kvs.*1 → dict_of pyval_eqb kvs = kvs).
Proof.
  unfold dict_of.
  assert (Hgen : ∀ acc : list (pyval * V),
    (NoDup acc.*1 →
     NoDup (foldl (λ d kv, dict_set pyval_eqb kv.1 kv.2 d) acc kvs).*1)
    ∧ (∀ kv, kv ∈ foldl (λ d kv, dict_set pyval_eqb kv.1 kv.2 d) acc kvs →
             kv ∈ acc ∨ kv ∈ kvs)
    ∧ (NoDup (acc ++ kvs).*1 →
       foldl (λ d kv, dict_set pyval_eqb kv.1 kv.2 d) acc kvs = acc ++ kvs)).
  { induction kvs as [|[k v] kvs IH]; intros acc; cbn [foldl fst snd].
    - split_and!; [done|by left|by rewrite app_nil_r].
    - destruct (IH (dict_set pyval_eqb k v acc)) as (IH1 & IH2 & IH3).
      split_and!.
      + intros Hacc. by apply IH1, dict_set_keys.
      + intros [k' v'] [[Hin| ->]%dict_set_elem|Hin]%IH2;
          [by left|right; by left|right; by right].
      + rewrite fmap_app, fmap_cons. cbn [fst].
        intros (Hacc & Hdisj & [Hk Hkvs]%NoDup_cons)%NoDup_app.
        assert (k ∉ acc.*1) as Hfresh.
        { intros Hin. apply (Hdisj k Hin). by left. }
        rewrite IH3; rewrite (dict_set_fresh _ _ _ Hfresh).
        * by rewrite <- (assoc_L (++)).
        * rewrite <- (assoc_L (++)). cbn [app].
          rewrite fmap_app, fmap_cons. cbn [fst].
          apply NoDup_app. split_and!; [done| |by apply NoDup_cons].
          intros x Hx. by apply Hdisj. }
  destruct (Hgen []) as (H1 & H2 & H3). split_and!.
  - apply H1. constructor.
  - intros kv [Hin|Hin]%H2; [by apply elem_of_nil in Hin|done].
  - intros Hkvs. by apply H3.
Qed.

(** ** Scoring and validation *)

Section scoring.
Context (pagerank_scipy :
  option Graph → option Q → list (pyval * Z) → result (list (pyval * Q))).
Implicit Types (self : PageRankRecommender).

(** X19. The scores returned for a candidate set. When [_scores] returns,
    its result has every key once, every key is one of the requested items,
    and every entry is an entry of what the diffusion engine returned for
    the graph of the instance, the given alpha and a personalization
    giving weight 1 to each seed; when the engine's keys are distinct, as
    those of a dict are, the result is exactly the engine's entries whose
    key is among the items, in the engine's order. *)
Theorem _scores_restricted_to_items self (a : option Q)
    (source_nodes : list Z) (items : list pyval) (out : list (pyval * Q)) :
  _scores pagerank_scipy self a source_nodes items = Ok out →
  ∃ scores,
    pagerank_scipy (graph self) a
      (dict_of pyval_eqb ((λ entity, (PInt entity, 1%Z)) <$> source_nodes))
    = Ok scores
    ∧ NoDup out.*1
    ∧ (∀ item score, (item, score) ∈ out →
         item ∈ items ∧ (item, score) ∈ scores)
    ∧ (NoDup scores.*1 → out = filter (λ kv, kv.1 ∈ items) scores)
    ∧ (∀ n w,
         (n, w) ∈ dict_of pyval_eqb
                    ((λ entity, (PInt entity, 1%Z)) <$> source_nodes) →
         w = 1%Z ∧ ∃ e, e ∈ source_nodes ∧ n = PInt e).
Proof.
  unfold _scores.
  destruct (pagerank_scipy _ _ _) as [scores|e] eqn:Hpr; simpl; [|discriminate].
  intros [= <-]. exists scores.
  destruct (dict_of_spec (filter (λ kv : pyval * Q, kv.1 ∈ items) scores))
    as (Hnodup & Hsub & Hid).
  split_and!; [done|done| | |].
  - intros item score [Hitem Hin]%Hsub%list_elem_of_filter. done.
  - intros Hkeys. apply Hid.
    eapply sublist_NoDup; [exact Hkeys|]. apply fmap_sublist, sublist_filter.
  - intros n w Hin.
    destruct (dict_of_spec ((λ entity, (PInt entity, 1%Z)) <$> source_nodes))
      as (_ & Hsub' & _).
    apply Hsub', list_elem_of_fmap in Hin as (e & [= -> ->] & He).
    split; [done|]. by exists e.
Qed.

Lemma decorated_sorted_keys (out : list (pyval * Q)) :
  (sorted_reverse ((λ kv, (kv.2, kv)) <$> out)).*2 ≡ₚ out.
Proof.
  rewrite sorted_reverse_perm, <- list_fmap_compose.
  by rewrite (list_fmap_ext _ id _ (λ _ _ _, eq_refl)), list_fmap_id.
Qed.

(** X20. What a hit needs and when it is automatic. [_validate] reports a
    hit only for a validation item the diffusion engine scored, that is a
    node of the graph; and when the engine's keys are distinct and the item
    comes with fewer than ten negatives, the cut at ten removes nothing, so
    the call reports a hit exactly when the engine scored the item, however
    its score compares with those of the negatives. *)
Theorem _validate_hit_needs_scored_item self (alpha : Q)
    (source_nodes : list Z) (validation_item : pyval)
    (negatives : list pyval) (scores : list (pyval * Q)) :
  pagerank_scipy (graph self) (Some alpha)
    (dict_of pyval_eqb ((λ entity, (PInt entity, 1%Z)) <$> source_nodes))
  = Ok scores →
  (_validate pagerank_scipy self alpha source_nodes validation_item negatives
   = Ok true → validation_item ∈ scores.*1)
  ∧ (NoDup scores.*1 → length negatives < 10 →
     _validate pagerank_scipy self alpha source_nodes validation_item negatives
     = Ok (bool_decide (validation_item ∈ scores.*1))).
Proof.
  intros Hpr. unfold _validate.
  destruct (_scores pagerank_scipy self (Some alpha) source_nodes
              (validation_item :: negatives)) as [out|e] eqn:Hout;
    [|unfold _scores in Hout; by rewrite Hpr in Hout].
  unfold _scores in Hout. rewrite Hpr in Hout. simpl in Hout.
  injection Hout as <-.
  destruct (dict_of_spec
              (filter (λ kv : pyval * Q, kv.1 ∈ validation_item :: negatives)
                      scores)) as (Hnodup & Hsub' & Hid').
  assert (Hsub : ∀ item score,
    (item, score) ∈ dict_of pyval_eqb
      (filter (λ kv : pyval * Q, kv.1 ∈ validation_item :: negatives) scores) →
    item ∈ validation_item :: negatives ∧ (item, score) ∈ scores).
  { by intros item score [? ?]%Hsub'%list_elem_of_filter. }
  assert (Hid : NoDup scores.*1 →
    dict_of pyval_eqb
      (filter (λ kv : pyval * Q, kv.1 ∈ validation_item :: negatives) scores)
    = filter (λ kv : pyval * Q, kv.1 ∈ validation_item :: negatives) scores).
  { intros Hkeys. apply Hid'.
    eapply sublist_NoDup; [exact Hkeys|]. apply fmap_sublist, sublist_filter. }
  set (out := dict_of pyval_eqb (filter _ scores)) in *. simpl. split.
  - intros [= Hhit%bool_decide_eq_true].
    apply list_elem_of_fmap in Hhit as ([item score] & -> & Hin).
    apply subseteq_take in Hin. rewrite decorated_sorted_keys in Hin.
    apply Hsub in Hin as [_ Hin]. apply list_elem_of_fmap.
    by exists (item, score).
  - intros Hkeys Hlen. f_equal.
    assert (length out ≤ 10) as Hshort.
    { transitivity (length (validation_item :: negatives)); [|simpl; lia].
      rewrite <- (length_fmap fst out). apply submseteq_length.
      apply NoDup_submseteq; [done|].
      intros item ([item' score] & -> & Hin)%list_elem_of_fmap.
      by apply Hsub in Hin as [? _]. }
    rewrite take_ge
      by (rewrite length_fmap, sorted_reverse_length, length_fmap; lia).
    apply bool_decide_ext. rewrite decorated_sorted_keys, (Hid Hkeys).
    rewrite !list_elem_of_fmap. split.
    + intros ([item score] & -> & [_ Hin]%list_elem_of_filter).
      by exists (item, score).
    + intros ([item score] & -> & Hin). exists (item, score).
      split; [done|]. apply list_elem_of_filter. split; [by left|done].
Qed.

End scoring.

Lemma _scores_restricted_to_items_witness :
  ∃ scores,
    (λ (_ : option Graph) (_ : option Q) (_ : list (pyval * Z)),
       Ok [(PInt 7, 0.5%Q); (PInt 8, 0.3%Q)])
      None None (dict_of pyval_eqb ((λ entity, (PInt entity, 1%Z)) <$> [7%Z]))
    = Ok scores
    ∧ NoDup [(PInt 8, 0.3%Q)].*1.
Proof.
  destruct (_scores_restricted_to_items
              (λ _ _ _, Ok [(PInt 7, 0.5%Q); (PInt 8, 0.3%Q)])
              (PageRankRecommender_init true) None [7%Z] [PInt 8]
              [(PInt 8, 0.3%Q)]) as (scores & Hpr & Hnodup & _).
  - reflexivity.
  - exists scores. split; [exact Hpr|exact Hnodup].
Defined.

Lemma _validate_hit_needs_scored_item_witness :
  _validate (λ _ _ _, Ok [(PInt 7, 0.5%Q); (PInt 8, 0.3%Q); (PInt 9, 0.9%Q)])
            (PageRankRecommender_init true) 0.1%Q [7%Z] (PInt 8) [PInt 9]
  = Ok (bool_decide
          (PInt 8 ∈ [(PInt 7, 0.5%Q); (PInt 8, 0.3%Q); (PInt 9, 0.9%Q)].*1)).
Proof.
  apply (_validate_hit_needs_scored_item
           (λ _ _ _, Ok [(PInt 7, 0.5%Q); (PInt 8, 0.3%Q); (PInt 9, 0.9%Q)])
           (PageRankRecommender_init true) 0.1%Q [7%Z] (PInt 8) [PInt 9]
           [(PInt 7, 0.5%Q); (PInt 8, 0.3%Q); (PInt 9, 0.9%Q)]).
  - reflexivity.
  - compute_done.
  - simpl. lia.
Defined.

(** ** Calibration *)

Lemma ratio_in_unit_interval (hits count : Z) :
  (0 ≤ hits ≤ count)%Z → count ≠ 0%Z →
  (0 <= inject_Z hits / inject_Z count)%Q
  ∧ (inject_Z hits / inject_Z count <= 1)%Q.
Proof.
  intros [Hh Hc] Hne.
  assert (0 < inject_Z count)%Q as Hpos.
  { change 0%Q with (inject_Z 0). rewrite <- Zlt_Qlt. lia. }
  split.
  - apply Qle_shift_div_l; [done|]. rewrite Qmult_0_l.
    change 0%Q with (inject_Z 0). rewrite <- Zle_Qle. done.
  - apply Qle_shift_div_r; [done|]. rewrite Qmult_1_l.
    rewrite <- Zle_Qle. done.
Qed.

Section calibration.
Context (pagerank_scipy :
  option Graph → option Q → list (pyval * Z) → result (list (pyval * Q))).
Context (construct_graph : PageRankRecommender → Training → result Graph).
Implicit Types (self : PageRankRecommender) (training : Training)
  (validation : list (pyval * (pyval * list pyval))).

(** X21. Every hit ratio of the table [fit] returns lies between 0 and 1,
    and the table has one entry for each of the nine alphas of the grid. *)
Theorem fit_hit_ratios_in_unit_interval self training validation
    self' (alpha_hit : list (Q * Q)) :
  fit pagerank_scipy construct_graph self training validation
  = (self', Ok alpha_hit) →
  length alpha_hit = 9
  ∧ ∀ alpha ratio, (alpha, ratio) ∈ alpha_hit →
      (0 <= ratio)%Q ∧ (ratio <= 1)%Q.
Proof.
  unfold fit.
  destruct (construct_graph _ training) as [g|e]; [|discriminate].
  destruct (alpha_loop _ _ _ _ _) as [table|e] eqn:Hloop; [|discriminate].
  destruct (best_alpha table) as [a|e]; [|discriminate].
  intros [= _ <-].
  apply PageRankProofs.alpha_loop_ranges_Ok in Hloop as [Hkeys Hall]. split.
  - by rewrite <- (length_fmap fst), Hkeys.
  - intros alpha ratio Hin. rewrite Forall_forall in Hall.
    destruct (Hall _ Hin) as (hits & count & Hpass & Hne & Hratio).
    simpl in Hpass, Hratio. subst ratio.
    apply PageRankProofs.validation_pass_Ok in Hpass as [-> ->].
    apply ratio_in_unit_interval; [|done].
    pose proof (length_filter
      (λ entry, is_hit pagerank_scipy
                  (set_graph (record_ratings self training) g) alpha entry)
      (filter (λ entry,
                 eligible (set_graph (record_ratings self training) g) entry)
              validation)).
    lia.
Qed.

(** X22. What a failed [fit] leaves behind. Whatever the outcome, the
    ratings of the training set are recorded and [only_positive] is kept;
    [alpha] is assigned only by a call that returns, so after any exception
    it is what it was before the call. In this class, whose
    [construct_graph] is not implemented, every [fit] raises
    [NotImplementedError] after recording the ratings. *)
Theorem fit_failure_keeps_alpha self training validation :
  user_ratings (fit pagerank_scipy construct_graph self training validation).1
  = user_ratings (record_ratings self training)
  ∧ only_positive
      (fit pagerank_scipy construct_graph self training validation).1
    = only_positive self
  ∧ (∀ e, (fit pagerank_scipy construct_graph self training validation).2
          = Err e →
          alpha (fit pagerank_scipy construct_graph self training validation).1
          = alpha self)
  ∧ fit pagerank_scipy construct_graph_base self training validation
    = (record_ratings self training, Err NotImplementedError).
Proof.
  unfold fit.
  destruct (construct_graph _ training) as [g|e];
    [|split_and!; done].
  destruct (alpha_loop pagerank_scipy _ validation alpha_ranges [])
    as [table|e]; [|split_and!; done].
  destruct (best_alpha table) as [a|e]; split_and!; done.
Qed.

Lemma validation_pass_unknown_user self alpha validation hits count :
  (∀ g a p, is_Ok (pagerank_scipy g a p)) →
  (∃ entry, entry ∈ validation ∧ user_ratings self !! entry.1 = None) →
  validation_pass pagerank_scipy self alpha validation hits count
  = Err KeyError.
Proof.
  intros Hpr. revert hits count.
  induction validation as [|[user [item negatives]] validation IH];
    intros hits count (entry & Hin & Hnone); [by apply elem_of_nil in Hin|].
  simpl.
  destruct (get_source_nodes self user) as [src|e] eqn:Hsrc; simpl.
  - assert (∃ entry, entry ∈ validation ∧ user_ratings self !! entry.1 = None)
      as Hrest.
    { apply elem_of_cons in Hin as [->|Hin]; [|by exists entry].
      simpl in Hnone. unfold get_source_nodes in Hsrc.
      by rewrite Hnone in Hsrc. }
    destruct src as [|s src]; simpl; [by apply IH|].
    unfold _validate, _scores.
    destruct (Hpr (graph self) (Some alpha)
                (dict_of pyval_eqb
                   ((λ entity, (PInt entity, 1%Z)) <$> s :: src)))
      as [scores ->].
    simpl. by apply IH.
  - by apply PageRankProofs.get_source_nodes_error in Hsrc as ->.
Qed.

(** X23. A validation user without recorded ratings is not skipped. When
    the graph is built and the diffusion engine answers every call, a
    validation set holding a user who is in no training entry and was never
    recorded before makes [fit] raise [KeyError] at the first alpha; the
    graph and the ratings are stored, [alpha] is not. *)
Theorem fit_unknown_validation_user self training validation g :
  construct_graph (record_ratings self training) training = Ok g →
  (∀ g a p, is_Ok (pagerank_scipy g a p)) →
  (∃ entry, entry ∈ validation
            ∧ (entry.1 ∉ training.*1)
            ∧ user_ratings self !! entry.1 = None) →
  fit pagerank_scipy construct_graph self training validation
  = (set_graph (record_ratings self training) g, Err KeyError).
Proof.
  intros Hg Hpr (entry & Hin & Hout & Hnone). unfold fit. rewrite Hg.
  unfold alpha_ranges. cbn [alpha_loop].
  rewrite (validation_pass_unknown_user _ (1 # 10)); [done|done|].
  exists entry. split; [done|]. cbn [set_graph user_ratings].
  by rewrite record_ratings_fresh.
Qed.

End calibration.

Lemma fit_hit_ratios_in_unit_interval_witness :
  length
    (zip alpha_ranges (replicate 9 (inject_Z 0 / inject_Z 1)%Q)) = 9.
Proof.
  apply (fit_hit_ratios_in_unit_interval
           (λ g _ _, Ok ((λ n, (n, 1%Q)) <$> default [] (nodes <$> g)))
           construct_graph_collaborative (PageRankRecommender_init true)
           [(PInt 1, [mkRating 7 1; mkRating 8 0])]
           [(PInt 1, (PInt 9, [PInt 8]))]
           (set_alpha
              (set_graph
                 (record_ratings (PageRankRecommender_init true)
                    [(PInt 1, [mkRating 7 1; mkRating 8 0])])
                 (construct_collaborative_graph empty_graph
                    [(PInt 1, [mkRating 7 1; mkRating 8 0])] true))
              (1 # 10))).
  reflexivity.
Defined.

Lemma fit_unknown_validation_user_witness :
  fit (λ _ _ _, Ok []) construct_graph_collaborative
      (PageRankRecommender_init true)
      [(PInt 1, [mkRating 7 1])] [(PInt 2, (PInt 8, [PInt 9]))]
  = (set_graph
       (record_ratings (PageRankRecommender_init true)
          [(PInt 1, [mkRating 7 1])])
       (construct_collaborative_graph empty_graph
          [(PInt 1, [mkRating 7 1])] true),
     Err KeyError).
Proof.
  apply (fit_unknown_validation_user (λ _ _ _, Ok [])
           construct_graph_collaborative (PageRankRecommender_init true)
           [(PInt 1, [mkRating 7 1])] [(PInt 2, (PInt 8, [PInt 9]))]).
  - reflexivity.
  - intros g a p. by eexists.
  - exists (PInt 2, (PInt 8, [PInt 9])). split_and!.
    + by left.
    + simpl. by intros [=]%list_elem_of_singleton.
    + reflexivity.
Defined.

End PageRankExtra.
